(** * Lake-model assignment script: a shallow embedding and its properties

    The development follows the one source file of the repository,
    [assignment 2 - lakemodel.py].  It has four parts:

    - [Np]: the NumPy fragment used by [process_p] (element-wise addition of
      rows, mean along axis 0, maximum of a one-dimensional array) and
      [process_p] itself, on exact rationals;
    - [Np64]: the same fragment and [process_p] on IEEE binary64 numbers,
      with every addition and division rounded to nearest-even;
    - [Script]: the module-level statements of the script, as computations in
      a state-and-exception monad over the module's global namespace;
    - [LakeModel]: the simulation core [lake_problem], which the script only
      imports.

    In [Np] numbers are exact rationals ([Q]): it gives the values the code
    computes before any rounding, and an equation between such values is an
    equation of exact arithmetic ([==] on [Q]).  What the interpreter returns
    on doubles is [Np64]; where rounding makes the two differ, the difference
    is shown on [Np64]. *)

From Stdlib Require Import QArith Qminmax Qabs Lqa Lia List Permutation SpecFloat.
From stdpp Require Import gmap strings.
Import ListNotations.

Local Open Scope Q_scope.

(* ===================================================================== *)
(** ** The NumPy fragment and [process_p]                                 *)
(* ===================================================================== *)

Module Np.

(** What a call returns: a number, the float [nan], or a raised
    [ValueError]. *)
Inductive result : Type :=
| Ok (x : Q)
| NaN
| ValueError.

(** A nested Python list of numbers; the rows are the replications, the
    columns the time steps. *)
Definition nested := list (list Q).

(** [np.asarray] accepts a nested list only when all rows have one length. *)
Definition rectangular (ncols : nat) (values : nested) : bool :=
  forallb (fun row => Nat.eqb (length row) ncols) values.

(** Shape of [np.asarray values] when it is two-dimensional: [[]] becomes a
    one-dimensional array of shape (0,), a ragged list is refused. *)
Definition shape (values : nested) : option (nat * nat) :=
  match values with
  | [] => None
  | row :: _ =>
      if rectangular (length row) values
      then Some (length values, length row)
      else None
  end.

(** Element-wise [+] of two rows of one length. *)
Fixpoint add_rows (acc row : list Q) : list Q :=
  match acc, row with
  | a :: acc', x :: row' => (a + x) :: add_rows acc' row'
  | _, _ => []
  end.

(** [np.add.reduce(values, axis=0)]: the first row is the accumulator, the
    others are added to it one after the other.  The sums are exact; with
    every sum rounded this is [Np64.sum_axis0]. *)
Definition sum_axis0 (values : nested) : list Q :=
  match values with
  | [] => []
  | row :: rows => fold_left add_rows rows row
  end.

(** [np.mean(values, axis=0)] on an array with at least one row: the sum
    along axis 0 divided by the number of rows.  The quotients are exact;
    with every quotient rounded this is [Np64.mean_axis0]. *)
Definition mean_axis0 (values : nested) : list Q :=
  map (fun s => s / inject_Z (Z.of_nat (length values))) (sum_axis0 values).

(** [np.max] of a one-dimensional array; [None] stands for the [ValueError]
    it raises on an array of size zero. *)
Definition amax (xs : list Q) : option Q :=
  match xs with
  | [] => None
  | x :: xs' => Some (fold_left Qmax xs' x)
  end.

(** The function of the script:
<<
    def process_p(values):
        values = np.asarray(values)
        values = np.mean(values, axis=0)
        return np.max(values)
>>
    On [[]] the mean of the empty one-dimensional array is [nan], and so is
    its maximum. *)
Definition process_p (values : nested) : result :=
  match values with
  | [] => NaN
  | row :: _ =>
      if rectangular (length row) values then
        match amax (mean_axis0 values) with
        | Some m => Ok m
        | None => ValueError
        end
      else ValueError
  end.

(** *** The aggregations in the words of the specification *)

(** The values of all replications at time step [t]. *)
Definition column (values : nested) (t : nat) : list Q :=
  map (fun row => nth t row 0) values.

Definition Qsum (xs : list Q) : Q := fold_right Qplus 0 xs.

Definition Qmean (xs : list Q) : Q := Qsum xs / inject_Z (Z.of_nat (length xs)).

(** Mean over the replications of [values[., t]]. *)
Definition step_mean (values : nested) (t : nat) : Q := Qmean (column values t).

(** [m] is the maximum of [f t] over the time steps [t < T]. *)
Definition is_max_of (f : nat -> Q) (T : nat) (m : Q) : Prop :=
  (forall t, (t < T)%nat -> f t <= m) /\ (exists t, (t < T)%nat /\ m == f t).

(** The maximum of [f 0 .. f (T-1)], computed from the last step down. *)
Fixpoint max_upto (f : nat -> Q) (T : nat) : Q :=
  match T with
  | O => 0
  | S O => f O
  | S T' => Qmax (max_upto f T') (f T')
  end.

(** Max of the per-step average across replications. *)
Definition max_of_step_means (values : nested) : Q :=
  max_upto (step_mean values) (match values with [] => 0 | row :: _ => length row end).

(** The maximum of one replication, the largest of [row[0] .. row[len-1]];
    0 on an empty row. *)
Definition row_max (row : list Q) : Q :=
  max_upto (fun t => nth t row 0) (length row).

(** The rival aggregation: average of the per-replication maxima. *)
Definition mean_of_row_maxima (values : nested) : Q := Qmean (map row_max values).

End Np.

(* ===================================================================== *)
(** ** [process_p] on IEEE binary64 numbers                               *)
(* ===================================================================== *)

Module Np64.

(** The format of a Python [float] and of a NumPy [float64]: 53 bits of
    precision, exponents below 1024.  The operations round to
    nearest-even. *)
Definition prec : Z := 53.
Definition emax : Z := 1024.

Definition add (x y : spec_float) : spec_float := SFadd prec emax x y.
Definition div (x y : spec_float) : spec_float := SFdiv prec emax x y.

(** The double of an integer, and of a row count. *)
Definition of_Z (z : Z) : spec_float := binary_normalize prec emax z 0 false.
Definition of_nat (n : nat) : spec_float := of_Z (Z.of_nat n).

(** The double a decimal literal denotes: [literal 1 10] is [0.1], the
    quotient of two exactly represented integers, rounded once. *)
Definition literal (num den : Z) : spec_float := div (of_Z num) (of_Z den).

(** The rational value of a finite double (0 for the others). *)
Definition value (x : spec_float) : Q :=
  match x with
  | S754_finite s m e => inject_Z (cond_Zopp s (Zpos m)) * 2 ^ e
  | _ => 0
  end.

Definition is_nan (x : spec_float) : bool :=
  match x with
  | S754_nan => true
  | _ => false
  end.

(** [np.maximum]: the first argument when it is [nan] or not below the
    second, else the second; a [nan] on either side is returned. *)
Definition maximum (a b : spec_float) : spec_float :=
  if SFleb b a || is_nan a then a else b.

(** What a call returns: a double, possibly [nan], or a raised
    [ValueError]. *)
Inductive result : Type :=
| Ok (x : spec_float)
| ValueError.

Definition rectangular (ncols : nat) (values : list (list spec_float)) : bool :=
  forallb (fun row => Nat.eqb (length row) ncols) values.

(** Element-wise [+] of two rows of one length, every sum rounded. *)
Fixpoint add_rows (acc row : list spec_float) : list spec_float :=
  match acc, row with
  | a :: acc', x :: row' => add a x :: add_rows acc' row'
  | _, _ => []
  end.

(** [np.add.reduce(values, axis=0)]: the first row is the accumulator, the
    others are added to it one after the other. *)
Definition sum_axis0 (values : list (list spec_float)) : list spec_float :=
  match values with
  | [] => []
  | row :: rows => fold_left add_rows rows row
  end.

(** [np.mean(values, axis=0)]: the sums divided by the number of rows. *)
Definition mean_axis0 (values : list (list spec_float)) : list spec_float :=
  map (fun s => div s (of_nat (length values))) (sum_axis0 values).

(** [np.max] of a one-dimensional array; [None] stands for the [ValueError]
    on an array of size zero. *)
Definition amax (xs : list spec_float) : option spec_float :=
  match xs with
  | [] => None
  | x :: xs' => Some (fold_left maximum xs' x)
  end.

(** [process_p] of the script, on a nested list of doubles. *)
Definition process_p (values : list (list spec_float)) : result :=
  match values with
  | [] => Ok S754_nan
  | row :: _ =>
      if rectangular (length row) values then
        match amax (mean_axis0 values) with
        | Some m => Ok m
        | None => ValueError
        end
      else ValueError
  end.

End Np64.

(* ===================================================================== *)
(** ** The script's module-level statements                               *)
(* ===================================================================== *)

Module Script.

(** *** Objects *)

(** A numeric literal, as the script writes it: [2] is an [int], [4.5] a
    [float]. *)
Inductive number : Type :=
| PyInt (z : Z)
| PyFloat (x : Q).

Definition number_value (n : number) : Q :=
  match n with
  | PyInt z => inject_Z z
  | PyFloat x => x
  end.

(** A value bound to a name or passed to a call.  [VForeign] is an object
    of a library (a module, a class, an evaluator, a result table): the
    script only passes such objects on.  [VModelRef] is a reference to the
    [Model] object the script creates. *)
Inductive value : Type :=
| VStr (s : string)
| VNum (n : number)
| VFunction (name : string)
| VForeign (id : positive)
| VModelRef.

(** [RealParameter(name, lower_bound, upper_bound)]: a continuous parameter
    over a closed interval. *)
Record RealParameter : Type := {
  rp_name : string;
  lower_bound : number;
  upper_bound : number
}.

Definition range (p : RealParameter) : Q * Q :=
  (number_value (lower_bound p), number_value (upper_bound p)).

(** [ScalarOutcome(name, variable_name=None, function=None)]. *)
Record ScalarOutcome : Type := {
  so_name : string;
  variable_name : option (list string);
  function : option value
}.

(** The output fields of the model function an outcome reads: its
    [variable_name], which defaults to the name of the outcome. *)
Definition output_fields (o : ScalarOutcome) : list string :=
  match variable_name o with
  | Some names => names
  | None => [so_name o]
  end.

(** [Constant(name, value)]. *)
Record Constant : Type := {
  c_name : string;
  c_value : number
}.

(** [Model(name, function=...)] and the attributes the script assigns. *)
Record Model : Type := {
  m_name : string;
  m_function : value;
  uncertainties : list RealParameter;
  levers : list RealParameter;
  outcomes : list ScalarOutcome;
  constants : list Constant
}.

Definition new_Model (name : string) (f : value) : Model :=
  {| m_name := name; m_function := f;
     uncertainties := []; levers := []; outcomes := []; constants := [] |}.

(** *** Exceptions, the namespace and the interpreter state *)

Inductive exn : Type :=
| NameError (name : string)
| Foreign (description : string).

(** The state of the interpreter while the module runs: the module's global
    names and the one [Model] object, which the name [model] refers to. *)
Record state : Type := {
  globals : gmap string value;
  the_model : option Model
}.

(** The names of [builtins] the script uses. *)
Definition builtin (x : string) : option value :=
  if String.eqb x "list" then Some (VFunction "list") else None.

(** What the libraries do when the script calls into them: every import,
    attribute access and call returns an object or raises. *)
Record world : Type := {
  w_import : string -> value + exn;
  w_import_from : string -> string -> value + exn;
  w_getattr : value -> string -> value + exn;
  w_call : value -> list value -> list (string * value) -> value + exn;
  w_enter : value -> value + exn;
  w_exit : value -> option exn
}.

(** *** The monad of statements *)

Inductive outcome (A : Type) : Type :=
| Return (a : A) (st : state)
| Raise (e : exn).
Arguments Return {A} a st.
Arguments Raise {A} e.

Definition M (A : Type) : Type := state -> outcome A.

Definition ret {A : Type} (a : A) : M A := fun st => Return a st.

Definition bind {A B : Type} (c : M A) (k : A -> M B) : M B :=
  fun st =>
    match c st with
    | Return a st' => k a st'
    | Raise e => Raise e
    end.

Definition raise {A : Type} (e : exn) : M A := fun _ => Raise e.

Declare Scope py_scope.
Delimit Scope py_scope with py.
Notation "x <- c ;; k" := (bind c (fun x => k))
  (at level 100, c at next level, right associativity) : py_scope.
Notation "c ;; k" := (bind c (fun _ => k))
  (at level 100, k at level 200, right associativity) : py_scope.
Local Open Scope py_scope.

(** The result of a library operation, in the monad. *)
Definition lift (r : value + exn) : M value :=
  match r with
  | inl v => ret v
  | inr e => raise e
  end.

(** Reading a name: the module's globals, then the builtins, else
    [NameError]. *)
Definition load (x : string) : M value :=
  fun st =>
    match globals st !! x with
    | Some v => Return v st
    | None =>
        match builtin x with
        | Some v => Return v st
        | None => Raise (NameError x)
        end
    end.

(** Binding a name. *)
Definition store (x : string) (v : value) : M unit :=
  fun st => Return tt {| globals := <[x := v]> (globals st); the_model := the_model st |}.

(** Creating the [Model] object, and assigning to an attribute of the
    object a value refers to. *)
Definition allocate_model (m : Model) : M value :=
  fun st => Return VModelRef {| globals := globals st; the_model := Some m |}.

Definition update_model (update : Model -> Model) (target : value) : M unit :=
  fun st =>
    match target, the_model st with
    | VModelRef, Some m =>
        Return tt {| globals := globals st; the_model := Some (update m) |}
    | _, _ => Raise (Foreign "AttributeError")
    end.

(** Evaluating the elements of a list display, left to right. *)
Fixpoint sequence {A : Type} (cs : list (M A)) : M (list A) :=
  match cs with
  | [] => ret []
  | c :: cs' => a <- c ;; rest <- sequence cs' ;; ret (a :: rest)
  end.

(** Partial correctness: when [c] returns from [st], the value and the
    state it returns satisfy [Q]. *)
Definition returns {A : Type} (c : M A) (st : state) (Q : A -> state -> Prop) : Prop :=
  forall a st', c st = Return a st' -> Q a st'.

(** *** Statements *)

Section Statements.

Variable w : world.

(** [import module as name]. *)
Definition import_as (module name : string) : M unit :=
  v <- lift (w_import w module) ;; store name v.

(** [from module import name, ...]. *)
Fixpoint from_import (module : string) (names : list string) : M unit :=
  match names with
  | [] => ret tt
  | name :: names' =>
      v <- lift (w_import_from w module name) ;;
      store name v ;;
      from_import module names'
  end.

(** Calls of the workbench classes: the class name is read, then the object
    is built. *)
Definition call_RealParameter (name : string) (lo hi : number) : M RealParameter :=
  load "RealParameter" ;;
  ret {| rp_name := name; lower_bound := lo; upper_bound := hi |}.

Definition call_ScalarOutcome (name : string) : M ScalarOutcome :=
  load "ScalarOutcome" ;;
  ret {| so_name := name; variable_name := None; function := None |}.

Definition call_Constant (name : string) (v : number) : M Constant :=
  load "Constant" ;;
  ret {| c_name := name; c_value := v |}.

Definition call_Model (name : string) (f : M value) : M value :=
  load "Model" ;;
  fn <- f ;;
  allocate_model (new_Model name fn).

(** [model.attr = ...], the right-hand side being evaluated already. *)
Definition set_model_attr (update : Model -> Model) : M unit :=
  target <- load "model" ;;
  update_model update target.

Definition with_uncertainties (ps : list RealParameter) (m : Model) : Model :=
  {| m_name := m_name m; m_function := m_function m;
     uncertainties := ps; levers := levers m;
     outcomes := outcomes m; constants := constants m |}.

Definition with_levers (ps : list RealParameter) (m : Model) : Model :=
  {| m_name := m_name m; m_function := m_function m;
     uncertainties := uncertainties m; levers := ps;
     outcomes := outcomes m; constants := constants m |}.

Definition with_outcomes (os : list ScalarOutcome) (m : Model) : Model :=
  {| m_name := m_name m; m_function := m_function m;
     uncertainties := uncertainties m; levers := levers m;
     outcomes := os; constants := constants m |}.

Definition with_constants (cs : list Constant) (m : Model) : Model :=
  {| m_name := m_name m; m_function := m_function m;
     uncertainties := uncertainties m; levers := levers m;
     outcomes := outcomes m; constants := cs |}.

(** [obj.attr] and [f(args, key=value, ...)] on library objects. *)
Definition getattr (obj : M value) (attr : string) : M value :=
  o <- obj ;; lift (w_getattr w o attr).

Definition call (f : M value) (args : list (M value)) (kwargs : list (string * M value)) : M value :=
  fn <- f ;;
  vs <- sequence args ;;
  kvs <- sequence (map (fun kv => v <- snd kv ;; ret (fst kv, v)) kwargs) ;;
  lift (w_call w fn vs kvs).

(** Running [body] and then the exit of a context manager, which happens
    also when the body raises; an exception of the exit replaces the one of
    the body. *)
Definition finally (body : M unit) (exit : option exn) : M unit :=
  fun st =>
    match body st, exit with
    | Return _ st', None => Return tt st'
    | Raise e, None => Raise e
    | _, Some e' => Raise e'
    end.

(** [with mgr as x: body]. *)
Definition with_as (mgr : M value) (x : string) (body : M unit) : M unit :=
  m <- mgr ;;
  v <- lift (w_enter w m) ;;
  store x v ;;
  finally body (w_exit w m).

Definition is_main (v : value) : bool :=
  match v with
  | VStr s => String.eqb s "__main__"
  | _ => false
  end.

(** Lines 100-143: the imports, the model and what is registered on it. *)
Definition config_block : M unit :=
  from_import "lakemodel_function" ["lake_problem"] ;;
  import_as "numpy" "np" ;;
  from_import "ema_workbench" ["RealParameter"; "ScalarOutcome"; "Constant"; "Model"] ;;
  m <- call_Model "lakeproblem" (load "lake_problem") ;;
  store "model" m ;;
  us <- sequence [call_RealParameter "mean" (PyFloat 0.01) (PyFloat 0.05);
                  call_RealParameter "stdev" (PyFloat 0.001) (PyFloat 0.005);
                  call_RealParameter "b" (PyFloat 0.1) (PyFloat 0.45);
                  call_RealParameter "q" (PyInt 2) (PyFloat 4.5);
                  call_RealParameter "delta" (PyFloat 0.93) (PyFloat 0.99)] ;;
  set_model_attr (with_uncertainties us) ;;
  ls <- sequence [call_RealParameter "c1" (PyInt (-2)) (PyInt 2);
                  call_RealParameter "c2" (PyInt (-2)) (PyInt 2);
                  call_RealParameter "r1" (PyInt 0) (PyInt 2);
                  call_RealParameter "r2" (PyInt 0) (PyInt 2);
                  call_RealParameter "w1" (PyInt 0) (PyInt 1)] ;;
  set_model_attr (with_levers ls) ;;
  store "process_p" (VFunction "process_p") ;;
  os <- sequence [call_ScalarOutcome "max_P";
                  call_ScalarOutcome "utility";
                  call_ScalarOutcome "inertia";
                  call_ScalarOutcome "reliability"] ;;
  set_model_attr (with_outcomes os) ;;
  cs <- sequence [call_Constant "alpha" (PyFloat 0.41);
                  call_Constant "nsamples" (PyInt 150)] ;;
  set_model_attr (with_constants cs).

(** Lines 154-160: the experiment run, guarded by
    [if __name__ == "__main__":]. *)
Definition experiment_block : M unit :=
  from_import "ema_workbench" ["MultiprocessingEvaluator"; "ema_logging"; "perform_experiments"] ;;
  name <- load "__name__" ;;
  if is_main name then
    call (getattr (load "ema_logging") "log_to_stderr")
         [getattr (load "ema_logging") "INFO"] [] ;;
    with_as (call (load "MultiprocessingEvaluator") [load "model"] []) "evaluator"
      (results <- call (getattr (load "evaluator") "perform_experiments") []
                       [("scenarios", ret (VNum (PyInt 1000)));
                        ("policies", ret (VNum (PyInt 4)))] ;;
       store "results" results)
  else ret tt.

(** Line 180: [data = pd.DataFrame(outcomes)]. *)
Definition analysis_statement : M unit :=
  data <- call (getattr (load "pd") "DataFrame") [load "outcomes"] [] ;;
  store "data" data.

(** Lines 179-189: the analysis. *)
Definition analysis_block : M unit :=
  import_as "pandas" "pd" ;;
  analysis_statement ;;
  import_as "seaborn" "sns" ;;
  import_as "matplotlib.pyplot" "plt" ;;
  call (getattr (load "sns") "pairplot")
       [load "data"]
       [("vars", call (load "list") [call (getattr (load "outcomes") "keys") [] []] [])] ;;
  call (getattr (load "plt") "show") [] [] ;;
  ret tt.

(** The whole module. *)
Definition script : M unit :=
  config_block ;; experiment_block ;; analysis_block.

End Statements.

(** The state in which the module starts to run: only [__name__] is bound,
    to ["__main__"] when the file is run as a program. *)
Definition initial_state (name : string) : state :=
  {| globals := {[ "__name__" := VStr name ]}; the_model := None |}.

Definition run_module (w : world) (name : string) : outcome unit :=
  script w (initial_state name).

(** A world in which every library operation succeeds. *)
Definition obliging_world : world :=
  {| w_import := fun _ => inl (VForeign 1);
     w_import_from := fun _ _ => inl (VForeign 2);
     w_getattr := fun _ _ => inl (VForeign 3);
     w_call := fun _ _ _ => inl (VForeign 4);
     w_enter := fun _ => inl (VForeign 5);
     w_exit := fun _ => None |}.

(** Total correctness with exceptions: when [c] returns from [st], the
    value and the state satisfy [Qr]; when it raises, the exception
    satisfies [Qe]. *)
Definition wp {A : Type} (c : M A) (st : state)
    (Qr : A -> state -> Prop) (Qe : exn -> Prop) : Prop :=
  match c st with
  | Return a st' => Qr a st'
  | Raise e => Qe e
  end.

(** The exception [e] is one that a library operation raises in the world
    [w]. *)
Definition raised_by_world (w : world) (e : exn) : Prop :=
  (exists module, w_import w module = inr e) \/
  (exists module name, w_import_from w module name = inr e) \/
  (exists obj attr, w_getattr w obj attr = inr e) \/
  (exists f args kwargs, w_call w f args kwargs = inr e) \/
  (exists mgr, w_enter w mgr = inr e) \/
  (exists mgr, w_exit w mgr = Some e).

End Script.

(* ===================================================================== *)
(** ** The simulation core [lake_problem]                                 *)
(* ===================================================================== *)

(** Modelled from the spec: [lake_problem] is imported from
    [lakemodel_function.py], which is not among the sources.  The definitions
    below follow sections 3 and 4.1 of the specification.  What it leaves
    open is a parameter of the model: the planning horizon [T], the release
    rule, the real power [x^q], the threshold [X_crit] and the random
    generator with its log-normal draw. *)
Module LakeModel.

Record uncertainties : Type := {
  mean : Q;
  stdev : Q;
  b : Q;
  q : Q;
  delta : Q
}.

Record levers : Type := {
  c1 : Q;
  c2 : Q;
  r1 : Q;
  r2 : Q;
  w1 : Q
}.

Record constants : Type := {
  alpha : Q;
  nsamples : nat
}.

Record outcomes : Type := {
  max_P : Q;
  utility : Q;
  inertia : Q;
  reliability : Q
}.

Definition in_range (lo hi x : Q) : Prop := lo <= x /\ x <= hi.

(** The ranges of section 3. *)
Definition valid_uncertainties (u : uncertainties) : Prop :=
  in_range 0.01 0.05 (mean u) /\
  in_range 0.001 0.005 (stdev u) /\
  in_range 0.1 0.45 (b u) /\
  in_range 2 4.5 (q u) /\
  in_range 0.93 0.99 (delta u).

Definition valid_levers (l : levers) : Prop :=
  in_range (-2) 2 (c1 l) /\
  in_range (-2) 2 (c2 l) /\
  in_range 0 2 (r1 l) /\
  in_range 0 2 (r2 l) /\
  in_range 0 1 (w1 l).

(** The physical bound on a release, and the threshold of [inertia]. *)
Definition max_release : Q := 0.1.
Definition tau : Q := 0.2.

Definition clip (lo hi x : Q) : Q := Qmin hi (Qmax lo x).

(** [utility]: the sum over [t] of [alpha * a_t * delta^t], from step [t]
    on. *)
Fixpoint discounted (alpha delta : Q) (t : nat) (releases : list Q) : Q :=
  match releases with
  | [] => 0
  | a :: rest => alpha * a * delta ^ Z.of_nat t + discounted alpha delta (S t) rest
  end.

(** The number of steps [t >= 1] with [|a_t - a_(t-1)| > tau]. *)
Fixpoint large_changes (releases : list Q) : nat :=
  match releases with
  | a0 :: (a1 :: _) as rest =>
      ((if Qlt_le_dec tau (Qabs (a1 - a0)) then 1 else 0) + large_changes rest)%nat
  | _ => 0%nat
  end.

(** The number of stock levels below the threshold. *)
Fixpoint below (crit : Q) (stock : list Q) : nat :=
  match stock with
  | [] => 0%nat
  | x :: rest => ((if Qlt_le_dec x crit then 1 else 0) + below crit rest)%nat
  end.

Definition fraction (count total : nat) : Q :=
  inject_Z (Z.of_nat count) / inject_Z (Z.of_nat total).

Section Core.

(** The planning horizon. *)
Variable T : nat.

(** The release rule, from the levers and the trajectory so far. *)
Variable release_rule : levers -> list Q -> Q.

(** [power x q] stands for the real power [x^q]. *)
Variable power : Q -> Q -> Q.

(** The critical threshold, from [b] and [q]. *)
Variable X_crit : Q -> Q -> Q.

(** The random generator: its state and one log-normal draw with the given
    mean and standard deviation. *)
Variable rng : Type.
Variable lognormal : Q -> Q -> rng -> Q * rng.

(** Step 2a: [n] draws of the natural inflow. *)
Fixpoint draw (n : nat) (u : uncertainties) (g : rng) : list Q * rng :=
  match n with
  | O => ([], g)
  | S n' =>
      let (e, g1) := lognormal (mean u) (stdev u) g in
      let (es, g2) := draw n' u g1 in
      (e :: es, g2)
  end.

(** Modelled from the spec: step 2c of [lake_problem] (section 4.1), once
    per remaining inflow: the stock levels after [X_t] and the releases from
    [a_t] on.  [history] is [X_0 .. X_t]. *)
Fixpoint steps (u : uncertainties) (l : levers) (inflows : list Q)
    (X_t : Q) (history : list Q) : list Q * list Q :=
  match inflows with
  | [] => ([], [])
  | e :: rest =>
      let a := clip 0 max_release (release_rule l history) in
      let X' := X_t + a + power X_t (q u) / (1 + power X_t (q u)) - b u * X_t + e in
      let (stock, releases) := steps u l rest X' (history ++ [X']) in
      (X' :: stock, a :: releases)
  end.

(** Steps 2b-2d: one replication, the trajectory [X_0 .. X_T] and the
    releases [a_0 .. a_(T-1)]. *)
Definition replication (u : uncertainties) (l : levers) (inflows : list Q) : list Q * list Q :=
  let (stock, releases) := steps u l inflows 0 [0] in
  (0 :: stock, releases).

(** Step 2: [n] replications, each with [T] fresh draws. *)
Fixpoint replications (n : nat) (u : uncertainties) (l : levers) (g : rng) :
    list (list Q * list Q) * rng :=
  match n with
  | O => ([], g)
  | S n' =>
      let (inflows, g1) := draw T u g in
      let (runs, g2) := replications n' u l g1 in
      (replication u l inflows :: runs, g2)
  end.

(** What one replication records: [T + 1] stock levels and [T] releases,
    each release within the physical bound. *)
Definition well_formed_run (run : list Q * list Q) : Prop :=
  length (fst run) = S T /\ length (snd run) = T /\
  Forall (in_range 0 max_release) (snd run).

(** [inertia] of a release sequence. *)
Definition inertia_of (releases : list Q) : Q :=
  fraction (large_changes releases) (T - 1).

(** [reliability] of one replication: the fraction of the steps
    [t = 0 .. T-1] with [X_t] below the threshold. *)
Definition reliability_of (crit : Q) (trajectory : list Q) : Q :=
  fraction (below crit (firstn T trajectory)) T.

(** Modelled from the spec: steps 3 and 4 of [lake_problem] (section 4.1),
    the outcomes of the recorded replications.  The specification calls the
    release sequence replication-invariant; it is read from the first
    replication. *)
Definition aggregate (u : uncertainties) (c : constants)
    (runs : list (list Q * list Q)) : outcomes :=
  let trajectories := map fst runs in
  let releases := hd [] (map snd runs) in
  {| max_P := Np.max_of_step_means trajectories;
     utility := discounted (alpha c) (delta u) 0 releases;
     inertia := inertia_of releases;
     reliability := Np.Qmean (map (reliability_of (X_crit (b u) (q u))) trajectories) |}.

(** Modelled from the spec: [lake_problem] of [lakemodel_function.py], one
    model evaluation from the generator state [g]. *)
Definition lake_problem (u : uncertainties) (l : levers) (c : constants) (g : rng) :
    outcomes * rng :=
  let (runs, g') := replications (nsamples c) u l g in
  (aggregate u c runs, g').

End Core.

End LakeModel.

(* ===================================================================== *)
(** ** Properties of [process_p]                                          *)
(* ===================================================================== *)

Module NpFacts.
Import Np.

Lemma count_pos (n : nat) : (0 < n)%nat -> 0 < inject_Z (Z.of_nat n).
Proof. intros Hn. unfold Qlt. simpl. lia. Qed.

(** *** Shapes *)

Lemma rectangular_Forall (T : nat) (values : nested) :
  rectangular T values = true <-> Forall (fun row => length row = T) values.
Proof.
  unfold rectangular. rewrite forallb_forall, List.Forall_forall.
  split; intros H row Hin; specialize (H row Hin).
  - now apply Nat.eqb_eq.
  - now apply Nat.eqb_eq.
Qed.

Lemma shape_inv (values : nested) (n T : nat) :
  shape values = Some (n, T) ->
  exists row rows,
    values = row :: rows /\ length row = T /\ n = length values /\
    rectangular T values = true /\ Forall (fun r => length r = T) values.
Proof.
  destruct values as [|row rows]; [discriminate|].
  unfold shape. destruct (rectangular _ _) eqn:Hrect; [|discriminate].
  intros [= <- <-]. exists row, rows. repeat split; auto.
  now apply rectangular_Forall.
Qed.

(** *** Sums along axis 0 *)

Lemma add_rows_length (T : nat) (acc row : list Q) :
  length acc = T -> length row = T -> length (add_rows acc row) = T.
Proof.
  revert acc row. induction T as [|T IH]; intros [|a acc] [|x row]; simpl; try discriminate; auto.
Qed.

Lemma add_rows_nth (acc row : list Q) (t : nat) :
  length acc = length row ->
  nth t (add_rows acc row) 0 == nth t acc 0 + nth t row 0.
Proof.
  revert row t. induction acc as [|a acc IH]; intros [|x row] t; simpl; try discriminate.
  - intros _. destruct t; ring.
  - intros [= Hlen]. destruct t as [|t]; [reflexivity|]. now apply IH.
Qed.

Lemma fold_add_rows_length (T : nat) (rows : nested) (acc : list Q) :
  Forall (fun r => length r = T) rows -> length acc = T ->
  length (fold_left add_rows rows acc) = T.
Proof.
  intros Hrows. revert acc. induction Hrows as [|row rows Hrow _ IH]; intros acc Hacc; simpl; auto.
  apply IH. now apply add_rows_length.
Qed.

Lemma fold_add_rows_nth (T : nat) (rows : nested) (acc : list Q) (t : nat) :
  Forall (fun r => length r = T) rows -> length acc = T ->
  nth t (fold_left add_rows rows acc) 0 == nth t acc 0 + Qsum (column rows t).
Proof.
  intros Hrows. revert acc. induction Hrows as [|row rows Hrow _ IH]; intros acc Hacc; simpl.
  - ring.
  - rewrite IH by now apply add_rows_length.
    rewrite add_rows_nth by congruence. ring.
Qed.

Lemma sum_axis0_length (values : nested) (n T : nat) :
  shape values = Some (n, T) -> length (sum_axis0 values) = T.
Proof.
  intros Hs. destruct (shape_inv _ _ _ Hs) as (row & rows & -> & Hrow & _ & _ & Hall).
  simpl. inversion Hall; subst. now apply fold_add_rows_length.
Qed.

Lemma sum_axis0_nth (values : nested) (n T t : nat) :
  shape values = Some (n, T) ->
  nth t (sum_axis0 values) 0 == Qsum (column values t).
Proof.
  intros Hs. destruct (shape_inv _ _ _ Hs) as (row & rows & -> & Hrow & _ & _ & Hall).
  simpl. inversion Hall; subst. now apply fold_add_rows_nth with (T := length row).
Qed.

Lemma column_length (values : nested) (t : nat) : length (column values t) = length values.
Proof. unfold column. apply length_map. Qed.

Lemma mean_axis0_length (values : nested) (n T : nat) :
  shape values = Some (n, T) -> length (mean_axis0 values) = T.
Proof. intros Hs. unfold mean_axis0. rewrite length_map. eapply sum_axis0_length; eauto. Qed.

(** The array computed by [np.mean(values, axis=0)] holds, at every time
    step, the mean over the replications. *)
Lemma mean_axis0_nth (values : nested) (n T t : nat) :
  shape values = Some (n, T) -> (t < T)%nat ->
  nth t (mean_axis0 values) 0 == step_mean values t.
Proof.
  intros Hs Ht. unfold mean_axis0, step_mean, Qmean.
  set (g := fun s : Q => s / inject_Z (Z.of_nat (length values))).
  rewrite (nth_indep _ 0 (g 0)) by (rewrite length_map; erewrite sum_axis0_length; eauto).
  rewrite map_nth. unfold g. rewrite column_length.
  now rewrite (sum_axis0_nth _ _ _ _ Hs).
Qed.

(** *** Maxima *)

Lemma fold_max_ge_acc (xs : list Q) (acc : Q) : acc <= fold_left Qmax xs acc.
Proof.
  revert acc. induction xs as [|x xs IH]; intros acc; simpl.
  - apply Qle_refl.
  - eapply Qle_trans; [apply (Q.le_max_l acc x)|apply IH].
Qed.

Lemma fold_max_upper (xs : list Q) (acc : Q) (t : nat) :
  (t < length xs)%nat -> nth t xs 0 <= fold_left Qmax xs acc.
Proof.
  revert acc t. induction xs as [|x xs IH]; intros acc t Ht; simpl in *; [lia|].
  destruct t as [|t].
  - eapply Qle_trans; [apply (Q.le_max_r acc x)|apply fold_max_ge_acc].
  - apply IH. lia.
Qed.

Lemma fold_max_attained (xs : list Q) (acc : Q) :
  fold_left Qmax xs acc == acc \/
  exists t, (t < length xs)%nat /\ fold_left Qmax xs acc == nth t xs 0.
Proof.
  revert acc. induction xs as [|x xs IH]; intros acc; simpl.
  - left. reflexivity.
  - destruct (IH (Qmax acc x)) as [Hacc | (t & Ht & Hmax)].
    + destruct (Q.max_spec acc x) as [[_ Hm] | [_ Hm]].
      * right. exists 0%nat. split; [lia|]. simpl. now rewrite Hacc.
      * left. now rewrite Hacc.
    + right. exists (S t). split; [lia|]. exact Hmax.
Qed.

Lemma amax_is_max (xs : list Q) (m : Q) :
  amax xs = Some m -> is_max_of (fun t => nth t xs 0) (length xs) m.
Proof.
  destruct xs as [|x xs]; [discriminate|]. intros [= <-]. split.
  - intros [|t] Ht; simpl in *.
    + apply fold_max_ge_acc.
    + apply fold_max_upper. lia.
  - destruct (fold_max_attained xs x) as [Hacc | (t & Ht & Hmax)].
    + exists 0%nat. split; [simpl; lia|assumption].
    + exists (S t). split; [simpl; lia|assumption].
Qed.

Lemma amax_some (xs : list Q) : (0 < length xs)%nat -> exists m, amax xs = Some m.
Proof. destruct xs; simpl; [lia|eauto]. Qed.

Lemma is_max_of_ext (f g : nat -> Q) (T : nat) (m : Q) :
  (forall t, (t < T)%nat -> f t == g t) -> is_max_of f T m -> is_max_of g T m.
Proof.
  intros Hfg [Hub (t & Ht & Hm)]. split.
  - intros t' Ht'. rewrite <- (Hfg t' Ht'). now apply Hub.
  - exists t. split; [assumption|]. now rewrite <- (Hfg t Ht).
Qed.

Lemma is_max_of_unique (f : nat -> Q) (T : nat) (m m' : Q) :
  is_max_of f T m -> is_max_of f T m' -> m == m'.
Proof.
  intros [Hub (t & Ht & Hm)] [Hub' (t' & Ht' & Hm')].
  apply Qle_antisym.
  - rewrite Hm. now apply Hub'.
  - rewrite Hm'. now apply Hub.
Qed.

Lemma max_upto_is_max (f : nat -> Q) (T : nat) :
  (0 < T)%nat -> is_max_of f T (max_upto f T).
Proof.
  destruct T as [|T]; [lia|]. intros _. induction T as [|T IH].
  - split.
    + intros t Ht. replace t with 0%nat by lia. apply Qle_refl.
    + exists 0%nat. split; [lia|reflexivity].
  - destruct IH as [Hub (t0 & Ht0 & Hm)].
    change (max_upto f (S (S T))) with (Qmax (max_upto f (S T)) (f (S T))).
    split.
    + intros t Ht. destruct (Nat.eq_dec t (S T)) as [->|Hne].
      * apply Q.le_max_r.
      * eapply Qle_trans; [apply Hub; lia|apply Q.le_max_l].
    + destruct (Q.max_spec (max_upto f (S T)) (f (S T))) as [[_ Hmax] | [_ Hmax]].
      * exists (S T). split; [lia|exact Hmax].
      * exists t0. split; [lia|]. now rewrite Hmax.
Qed.

(** *** What [process_p] returns on a non-empty two-dimensional array *)

Lemma process_p_spec (values : nested) (n T : nat) :
  shape values = Some (n, T) -> (0 < T)%nat ->
  exists r, process_p values = Ok r /\ is_max_of (step_mean values) T r.
Proof.
  intros Hs HT.
  destruct (amax_some (mean_axis0 values)) as [m Hm].
  { now rewrite (mean_axis0_length _ _ _ Hs). }
  exists m. split.
  - destruct (shape_inv _ _ _ Hs) as (row & rows & Hv & Hrow & _ & Hrect & _).
    unfold process_p. destruct values as [|row' rows']; [discriminate|].
    injection Hv as -> ->. now rewrite Hrow, Hrect, Hm.
  - apply amax_is_max in Hm. rewrite (mean_axis0_length _ _ _ Hs) in Hm.
    eapply is_max_of_ext; [|exact Hm].
    intros t Ht. now apply (mean_axis0_nth _ _ _ _ Hs).
Qed.

Lemma shape_rows_pos (values : nested) (n T : nat) :
  shape values = Some (n, T) -> (0 < n)%nat.
Proof.
  intros Hs. destruct (shape_inv _ _ _ Hs) as (row & rows & -> & _ & -> & _). simpl. lia.
Qed.

(** Outside the non-empty two-dimensional arrays: the empty list, rows
    without columns, rows of different lengths. *)
Example process_p_no_rows : process_p [] = NaN.
Proof. reflexivity. Qed.

Example process_p_no_columns : process_p [[]; []] = ValueError.
Proof. reflexivity. Qed.

Example process_p_ragged : process_p [[1; 2]; [3]] = ValueError.
Proof. reflexivity. Qed.

(** *** Sums and means of permuted and of dominated lists *)




Lemma Qdiv_le_compat_r (x y d : Q) : 0 < d -> x <= y -> x / d <= y / d.
Proof.
  intros Hd Hxy. unfold Qdiv. apply Qmult_le_compat_r; [assumption|].
  apply Qlt_le_weak. now apply Qinv_lt_0_compat.
Qed.

Lemma row_max_is_max (row : list Q) :
  (0 < length row)%nat -> is_max_of (fun t => nth t row 0) (length row) (row_max row).
Proof.
  intros Hlen. unfold row_max. now apply max_upto_is_max.
Qed.

Lemma column_sum_le_row_maxima (values : nested) (T t : nat) :
  Forall (fun r => length r = T) values -> (t < T)%nat ->
  Qsum (column values t) <= Qsum (map row_max values).
Proof.
  intros Hall Ht. induction Hall as [|row rows Hrow _ IH]; simpl.
  - apply Qle_refl.
  - apply Qplus_le_compat; [|exact IH].
    destruct (row_max_is_max row) as [Hub _]; [lia|]. apply Hub. lia.
Qed.

(** *** Main properties of [process_p] *)



(** On the array [[0, 4], [3, 0]] the value of [process_p] is 2, the larger
    of the step means 1.5 and 2, and not 3.5, the average of the row maxima 4
    and 3. *)
Example process_p_not_mean_of_row_maxima :
  exists r,
    process_p [[0; 4]; [3; 0]] = Ok r /\ r == 2 /\
    mean_of_row_maxima [[0; 4]; [3; 0]] == 3.5 /\
    ~ r == mean_of_row_maxima [[0; 4]; [3; 0]].
Proof.
  eexists. split; [reflexivity|]. repeat split; try reflexivity. discriminate.
Qed.

(** With the sums and quotients exact, the maximum of the column means is at
    most the mean of the row maxima, and the two are equal when the array has
    exactly one row.  The row maxima are taken by [row_max], which does not
    go through [np.max]. *)
Lemma max_of_column_means_le_mean_of_row_maxima (values : nested) (n T : nat) :
  shape values = Some (n, T) -> (0 < T)%nat ->
  exists r,
    process_p values = Ok r /\
    r <= mean_of_row_maxima values /\
    (n = 1%nat -> r == mean_of_row_maxima values).
Proof.
  intros Hs HT. destruct (process_p_spec _ _ _ Hs HT) as (r & Hr & Hmax).
  exists r. split; [assumption|].
  destruct (shape_inv _ _ _ Hs) as (row & rows & Hv & Hrow & Hn & _ & Hall).
  split.
  - destruct Hmax as [_ (t & Ht & ->)].
    unfold step_mean, mean_of_row_maxima, Qmean.
    rewrite column_length, length_map.
    apply Qdiv_le_compat_r.
    + apply count_pos. rewrite <- Hn. eapply shape_rows_pos; eauto.
    + now apply column_sum_le_row_maxima with (T := T).
  - intros ->. subst values. destruct rows; [|discriminate].
    assert (Hone : mean_of_row_maxima [row] == row_max row).
    { unfold mean_of_row_maxima, Qmean. simpl. field. }
    rewrite Hone.
    apply (is_max_of_unique (step_mean [row]) T); [assumption|].
    eapply is_max_of_ext; [|rewrite <- Hrow; apply row_max_is_max; lia].
    intros t _. unfold step_mean, Qmean. simpl. field.
Qed.

End NpFacts.

(* ===================================================================== *)
(** ** [process_p] on binary64: what rounding keeps and what it breaks    *)
(* ===================================================================== *)

Module Np64Facts.
Import Np64.





(** *** Division by the row count 1 *)

Local Open Scope Z_scope.

Lemma div_eucl_exact (a b q : Z) :
  (0 < b)%Z -> a = (b * q)%Z -> Z.div_eucl a b = (q, 0%Z).
Proof.
  intros Hb ->.
  assert (Hq : ((b * q) / b = q)%Z) by (rewrite Z.mul_comm; apply Z.div_mul; lia).
  assert (Hr : ((b * q) mod b = 0)%Z) by (rewrite Z.mul_comm; apply Z.mod_mul; lia).
  unfold Z.div, Z.modulo in *. destruct (Z.div_eucl (b * q) b) as [q' r'].
  now subst.
Qed.

(** Rounding a mantissa that is already in canonical position returns it. *)
Lemma round_aux_canonical (s : bool) (m : positive) (e : Z) :
  fexp prec emax (Z.pos (digits2_pos m) + e) = e -> (e <= emax - prec)%Z ->
  binary_round_aux prec emax s (Z.pos m) e loc_Exact = S754_finite s m e.
Proof.
  intros Hc Hb. unfold binary_round_aux, shr_fexp. cbn [Zdigits2 shr_record_of_loc].
  rewrite Hc, Z.sub_diag. cbn [shr shr_m loc_of_shr_record round_nearest_even Zdigits2].
  rewrite Hc, Z.sub_diag. cbn [shr shr_m].
  apply Z.leb_le in Hb. now rewrite Hb.
Qed.

(** Dividing a double by 1.0 returns it: the mean over a single row is the
    row. *)
Lemma div_by_one (x : spec_float) :
  valid_binary prec emax x = true -> div x (of_nat 1) = x.
Proof.
  change (of_nat 1) with (S754_finite false 4503599627370496 (-52)).
  destruct x as [s|s| |s m e]; try reflexivity.
  - destruct s; reflexivity.
  - destruct s; reflexivity.
  - cbn [valid_binary]. unfold bounded, canonical_mantissa. intros Hv.
    apply andb_prop in Hv. destruct Hv as [Hc Hb].
    apply Z.eqb_eq in Hc. apply Z.leb_le in Hb.
    unfold div, SFdiv, SFdiv_core_binary. cbn [Zdigits2].
    change (Z.pos (digits2_pos 4503599627370496)) with 53%Z.
    rewrite Bool.xorb_false_r.
    assert (Hc' := Hc). unfold fexp, emin, prec, emax in Hc'.
    destruct (Z.eq_dec e (-1074)) as [He|He].
    + replace (Z.min (fexp prec emax (Z.pos (digits2_pos m) + e - (53 + -52))) (e - -52))
        with e by (unfold fexp, emin, prec, emax; lia).
      replace (e - -52 - e)%Z with 52%Z by lia.
      rewrite (div_eucl_exact _ _ (Z.pos m));
        [|reflexivity|rewrite Z.shiftl_mul_pow2 by lia; lia].
      change (new_location 4503599627370496 0) with loc_Exact.
      now apply round_aux_canonical.
    + assert (Hd : digits2_pos m = 53%positive) by lia.
      replace (Z.min (fexp prec emax (Z.pos (digits2_pos m) + e - (53 + -52))) (e - -52))
        with (e - 1)%Z by (unfold fexp, emin, prec, emax; lia).
      replace (e - -52 - (e - 1))%Z with 53%Z by lia.
      rewrite (div_eucl_exact _ _ (Z.pos (xO m)));
        [|reflexivity|rewrite Z.shiftl_mul_pow2 by lia; lia].
      change (new_location 4503599627370496 0) with loc_Exact.
      unfold binary_round_aux, shr_fexp. cbn [Zdigits2 shr_record_of_loc].
      change (digits2_pos m~0) with (Pos.succ (digits2_pos m)).
      rewrite Hd. change (Z.pos (Pos.succ 53)) with 54%Z.
      replace (fexp prec emax (54 + (e - 1)) - (e - 1))%Z with 1%Z
        by (unfold fexp, emin, prec, emax; lia).
      cbn [shr SpecFloat.iter_pos shr_1 shr_m loc_of_shr_record round_nearest_even
           Zdigits2 orb].
      rewrite Hd. replace (e - 1 + 1)%Z with e by lia.
      replace (fexp prec emax (53 + e) - e)%Z with 0%Z
        by (unfold fexp, emin, prec, emax; lia).
      cbn [shr shr_m]. apply Z.leb_le in Hb. now rewrite Hb.
Qed.

Local Close Scope Z_scope.

(** *** The order of the doubles that are numbers *)

Ltac order_cases :=
  repeat match goal with
  | |- context [Z.compare ?a ?b] => destruct (Z.compare_spec a b)
  | H : context [Z.compare ?a ?b] |- _ => destruct (Z.compare_spec a b)
  | |- context [Pos.compare ?a ?b] => destruct (Pos.compare_spec a b)
  | H : context [Pos.compare ?a ?b] |- _ => destruct (Pos.compare_spec a b)
  end;
  cbn [CompOpp] in *; try reflexivity; try discriminate; try lia.

Ltac float_order :=
  unfold SFleb, SFcompare in *;
  change (Pos.compare_cont Eq) with Pos.compare in *;
  repeat match goal with s : bool |- _ => destruct s end;
  try reflexivity; try discriminate; order_cases.

Lemma leb_refl (x : spec_float) : is_nan x = false -> SFleb x x = true.
Proof. destruct x; intros Hx; try discriminate; float_order. Qed.

Lemma leb_total (a b : spec_float) :
  is_nan a = false -> is_nan b = false -> SFleb b a = false -> SFleb a b = true.
Proof.
  destruct a, b; intros Ha Hb; try discriminate; clear Ha Hb; intros H; float_order.
Qed.

Lemma leb_trans (x y z : spec_float) :
  SFleb x y = true -> SFleb y z = true -> SFleb x z = true.
Proof. destruct x, y, z; intros Hxy Hyz; float_order. Qed.

(** [np.max] over doubles that are numbers returns one of them, and none of
    them is above it. *)
Lemma fold_maximum_greatest (xs : list spec_float) (acc : spec_float) :
  Forall (fun x => is_nan x = false) (acc :: xs) ->
  In (fold_left maximum xs acc) (acc :: xs) /\
  Forall (fun x => SFleb x (fold_left maximum xs acc) = true) (acc :: xs).
Proof.
  revert acc. induction xs as [|x xs IH]; intros acc Hall.
  - inversion Hall; subst. cbn [fold_left]. split; [now left|].
    constructor; [now apply leb_refl|constructor].
  - inversion Hall as [|? ? Hacc Hrest]; subst.
    inversion Hrest as [|? ? Hx Hxs]; subst.
    cbn [fold_left].
    assert (Hmax : (maximum acc x = acc /\ SFleb x acc = true) \/
                   (maximum acc x = x /\ SFleb acc x = true)).
    { unfold maximum. rewrite Hacc, Bool.orb_false_r.
      destruct (SFleb x acc) eqn:Hle; [now left|right].
      split; [reflexivity|now apply leb_total]. }
    destruct Hmax as [[Hm Hle]|[Hm Hle]]; rewrite Hm.
    + destruct (IH acc ltac:(now constructor)) as [Hin Hub].
      inversion Hub as [|? ? Hacc' Hxs']; subst. split.
      * destruct Hin as [<-|Hin]; [now left|now right; right].
      * constructor; [assumption|]. constructor; [|assumption].
        eapply leb_trans; eassumption.
    + destruct (IH x ltac:(now constructor)) as [Hin Hub].
      inversion Hub as [|? ? Hx' Hxs']; subst. split.
      * now right.
      * constructor; [eapply leb_trans; eassumption|]. now constructor.
Qed.

(** On a single row of numbers [process_p] returns the largest entry of the
    row. *)
Lemma process_p_one_row (row : list spec_float) :
  row <> [] ->
  Forall (fun x => valid_binary prec emax x = true /\ is_nan x = false) row ->
  exists r,
    process_p [row] = Ok r /\ In r row /\
    Forall (fun x => SFleb x r = true) row /\
    div r (of_nat 1) = r.
Proof.
  intros Hne Hall.
  assert (Hmean : mean_axis0 [row] = row).
  { unfold mean_axis0, sum_axis0. cbn [fold_left length].
    rewrite <- (map_id row) at 2. apply map_ext_in.
    intros x Hx. rewrite List.Forall_forall in Hall. now apply div_by_one, Hall. }
  destruct row as [|x xs]; [contradiction|].
  assert (Hnan : Forall (fun x => is_nan x = false) (x :: xs)).
  { eapply List.Forall_impl; [|exact Hall]. now intros a [_ Ha]. }
  destruct (fold_maximum_greatest xs x Hnan) as [Hin Hub].
  exists (fold_left maximum xs x). split; [|split; [assumption|split; [assumption|]]].
  - unfold process_p, rectangular. cbn [forallb]. rewrite Nat.eqb_refl. cbn [andb].
    now rewrite Hmean.
  - apply div_by_one. rewrite List.Forall_forall in Hall. now apply Hall.
Qed.

(** *** Where rounding breaks an exact identity *)


(** On three rows [0.1] the value of [process_p] is 0.10000000000000002,
    above the mean of the three row maxima, which is the double 0.1. *)
Lemma process_p_binary64_above_mean_of_row_maxima :
  exists r,
    process_p [[literal 1 10]; [literal 1 10]; [literal 1 10]] = Ok r /\
    Np.mean_of_row_maxima
      (map (map value) [[literal 1 10]; [literal 1 10]; [literal 1 10]])
      == value (literal 1 10) /\
    ~ value r <= Np.mean_of_row_maxima
        (map (map value) [[literal 1 10]; [literal 1 10]; [literal 1 10]]).
Proof.
  eexists. split; [vm_compute; reflexivity|]. split.
  - vm_compute. reflexivity.
  - apply Qlt_not_le. vm_compute. reflexivity.
Qed.


(** C10, amended: with the sums and quotients exact, on every non-empty
    two-dimensional array the value of [process_p] (the maximum of the column
    means) is at most the mean of the row maxima, and the two are equal when
    the array has exactly one row.  On doubles the equality for one row holds
    as well: on a single row of numbers [process_p] returns the largest entry
    of the row, which is also the mean of that one row maximum.  (With more
    rows the double can exceed the exact mean of the row maxima by a rounding
    error.) *)
Theorem process_p_le_mean_of_row_maxima (values : Np.nested) (n T : nat)
    (row : list spec_float) :
  Np.shape values = Some (n, T) -> (0 < T)%nat ->
  row <> [] ->
  Forall (fun x => valid_binary prec emax x = true /\ is_nan x = false) row ->
  (exists r,
     Np.process_p values = Np.Ok r /\
     r <= Np.mean_of_row_maxima values /\
     (n = 1%nat -> r == Np.mean_of_row_maxima values)) /\
  (exists r,
     process_p [row] = Ok r /\ In r row /\
     Forall (fun x => SFleb x r = true) row /\
     div r (of_nat 1) = r).
Proof.
  intros Hs HT Hne Hall. split.
  - now apply (NpFacts.max_of_column_means_le_mean_of_row_maxima values n T).
  - now apply process_p_one_row.
Qed.

Lemma process_p_le_mean_of_row_maxima_witness :
  Np.shape [[2; 7; 1]] = Some (1%nat, 3%nat) /\
  [literal 1 10; literal 3 10; literal 2 10] <> [] /\
  Forall (fun x => valid_binary prec emax x = true /\ is_nan x = false)
    [literal 1 10; literal 3 10; literal 2 10] /\
  (exists r,
     Np.process_p [[2; 7; 1]] = Np.Ok r /\
     r <= Np.mean_of_row_maxima [[2; 7; 1]] /\
     (1%nat = 1%nat -> r == Np.mean_of_row_maxima [[2; 7; 1]])) /\
  (exists r,
     process_p [[literal 1 10; literal 3 10; literal 2 10]] = Ok r /\ 
     In r [literal 1 10; literal 3 10; literal 2 10] /\
     Forall (fun x => SFleb x r = true) [literal 1 10; literal 3 10; literal 2 10] /\
     div r (of_nat 1) = r).
Proof.
  assert (Hall : Forall (fun x => valid_binary prec emax x = true /\ is_nan x = false)
                   [literal 1 10; literal 3 10; literal 2 10]).
  { repeat constructor. }
  assert (Hne : [literal 1 10; literal 3 10; literal 2 10] <> []) by discriminate.
  split; [reflexivity|]. split; [exact Hne|]. split; [exact Hall|].
  apply (process_p_le_mean_of_row_maxima [[2; 7; 1]] 1 3
           [literal 1 10; literal 3 10; literal 2 10]);
    [reflexivity|lia|exact Hne|exact Hall].
Defined.


End Np64Facts.

(* ===================================================================== *)
(** ** Properties of the script                                           *)
(* ===================================================================== *)

Module ScriptFacts.
Import Script.
Local Open Scope py_scope.

(** *** Rules of [returns] *)

Lemma returns_ret {A : Type} (a : A) (st : state) (Q : A -> state -> Prop) :
  Q a st -> returns (ret a) st Q.
Proof. intros HQ a' st' [= <- <-]. exact HQ. Qed.

Lemma returns_bind {A B : Type} (c : M A) (k : A -> M B) (st : state)
    (Q : B -> state -> Prop) :
  returns c st (fun a st1 => returns (k a) st1 Q) -> returns (bind c k) st Q.
Proof.
  intros Hc b st' Hrun. unfold bind in Hrun.
  destruct (c st) as [a st1|e] eqn:Hcst; [|discriminate].
  exact (Hc a st1 Hcst b st' Hrun).
Qed.

Lemma returns_lift (r : value + exn) (st : state) (Q : value -> state -> Prop) :
  (forall v, r = inl v -> Q v st) -> returns (lift r) st Q.
Proof.
  intros HQ v st' Hrun. destruct r as [v0|e]; [|discriminate].
  injection Hrun as <- <-. now apply HQ.
Qed.

Lemma returns_load (x : string) (v : value) (st : state) (Q : value -> state -> Prop) :
  globals st !! x = Some v -> Q v st -> returns (load x) st Q.
Proof.
  intros Hx HQ v' st' Hrun. unfold load in Hrun. rewrite Hx in Hrun.
  now injection Hrun as <- <-.
Qed.

Lemma returns_store (x : string) (v : value) (st : state) (Q : unit -> state -> Prop) :
  Q tt {| globals := <[x := v]> (globals st); the_model := the_model st |} ->
  returns (store x v) st Q.
Proof. intros HQ [] st' [= <-]. exact HQ. Qed.

Lemma returns_allocate_model (m : Model) (st : state) (Q : value -> state -> Prop) :
  Q VModelRef {| globals := globals st; the_model := Some m |} ->
  returns (allocate_model m) st Q.
Proof. intros HQ v st' [= <- <-]. exact HQ. Qed.

Lemma returns_update_model (update : Model -> Model) (m : Model) (st : state)
    (Q : unit -> state -> Prop) :
  the_model st = Some m ->
  Q tt {| globals := globals st; the_model := Some (update m) |} ->
  returns (update_model update VModelRef) st Q.
Proof.
  intros Hm HQ [] st' Hrun. unfold update_model in Hrun. rewrite Hm in Hrun.
  now injection Hrun as <-.
Qed.

Lemma returns_finally (body : M unit) (exit : option exn) (st : state)
    (Q : unit -> state -> Prop) :
  returns body st (fun _ st1 => exit = None -> Q tt st1) ->
  returns (finally body exit) st Q.
Proof.
  intros Hbody [] st' Hrun. unfold finally in Hrun.
  destruct (body st) as [[] st1|e] eqn:Hb; destruct exit as [e'|]; try discriminate.
  injection Hrun as <-. now apply (Hbody tt st1).
Qed.

(** One step of symbolic execution of a statement. *)
Ltac exec_step w :=
  lazymatch goal with
  | |- returns (bind _ _) _ _ => apply returns_bind
  | |- returns (ret _) _ _ => apply returns_ret
  | |- returns (store _ _) _ _ => apply returns_store; cbn [globals the_model]
  | |- returns (lift _) _ _ => apply returns_lift; intros ? ?
  | |- returns (load _) _ _ => eapply returns_load; [reflexivity|]
  | |- returns (allocate_model _) _ _ =>
      apply returns_allocate_model; cbn [globals the_model]
  | |- returns (update_model _ _) _ _ =>
      eapply returns_update_model; [reflexivity|]; cbn [globals the_model]
  | |- returns (finally _ _) _ _ => apply returns_finally
  | |- returns (sequence _) _ _ => cbn [sequence map fst snd]
  | |- returns (from_import _ _ _) _ _ => cbn [from_import]
  | |- returns (import_as _ _ _) _ _ => unfold import_as
  | |- returns (call_Model _ _) _ _ => unfold call_Model
  | |- returns (call_RealParameter _ _ _) _ _ => unfold call_RealParameter
  | |- returns (call_ScalarOutcome _) _ _ => unfold call_ScalarOutcome
  | |- returns (call_Constant _ _) _ _ => unfold call_Constant
  | |- returns (set_model_attr _) _ _ => unfold set_model_attr
  | |- returns (getattr _ _ _) _ _ => unfold getattr
  | |- returns (call _ _ _ _) _ _ => unfold call
  | |- returns (with_as _ _ _ _) _ _ => unfold with_as
  | |- returns (if is_main (VStr _) then _ else _) _ _ => cbn [is_main String.eqb Ascii.eqb Bool.eqb]
  end.

(** The state in which lines 100-143 leave the module: seven names are
    bound besides [__name__], and the model object holds what the script
    registered. *)
Lemma config_block_returns (w : world) (name : string) :
  returns (config_block w) (initial_state name) (fun _ st =>
    exists lake_problem np rp so ct md,
      w_import_from w "lakemodel_function" "lake_problem" = inl lake_problem /\
      st = {| globals :=
                <["process_p" := VFunction "process_p"]>
                (<["model" := VModelRef]>
                (<["Model" := md]> (<["Constant" := ct]> (<["ScalarOutcome" := so]>
                (<["RealParameter" := rp]> (<["np" := np]>
                (<["lake_problem" := lake_problem]> {[ "__name__" := VStr name ]})))))));
              the_model := Some
                {| m_name := "lakeproblem";
                   m_function := lake_problem;
                   uncertainties :=
                     [ {| rp_name := "mean"; lower_bound := PyFloat 0.01; upper_bound := PyFloat 0.05 |};
                       {| rp_name := "stdev"; lower_bound := PyFloat 0.001; upper_bound := PyFloat 0.005 |};
                       {| rp_name := "b"; lower_bound := PyFloat 0.1; upper_bound := PyFloat 0.45 |};
                       {| rp_name := "q"; lower_bound := PyInt 2; upper_bound := PyFloat 4.5 |};
                       {| rp_name := "delta"; lower_bound := PyFloat 0.93; upper_bound := PyFloat 0.99 |} ];
                   levers :=
                     [ {| rp_name := "c1"; lower_bound := PyInt (-2); upper_bound := PyInt 2 |};
                       {| rp_name := "c2"; lower_bound := PyInt (-2); upper_bound := PyInt 2 |};
                       {| rp_name := "r1"; lower_bound := PyInt 0; upper_bound := PyInt 2 |};
                       {| rp_name := "r2"; lower_bound := PyInt 0; upper_bound := PyInt 2 |};
                       {| rp_name := "w1"; lower_bound := PyInt 0; upper_bound := PyInt 1 |} ];
                   outcomes :=
                     [ {| so_name := "max_P"; variable_name := None; function := None |};
                       {| so_name := "utility"; variable_name := None; function := None |};
                       {| so_name := "inertia"; variable_name := None; function := None |};
                       {| so_name := "reliability"; variable_name := None; function := None |} ];
                   constants :=
                     [ {| c_name := "alpha"; c_value := PyFloat 0.41 |};
                       {| c_name := "nsamples"; c_value := PyInt 150 |} ] |} |}).
Proof.
  unfold config_block, initial_state.
  repeat exec_step w.
  unfold with_uncertainties, with_levers, with_outcomes, with_constants.
  cbn [m_name m_function uncertainties levers outcomes constants new_Model].
  eauto 10.
Qed.

(** *** What the script registers on the model *)

(** C4: the script registers exactly five uncertain factors, all
    [RealParameter]s (continuous), with the names and ranges
    mean [0.01, 0.05], stdev [0.001, 0.005], b [0.1, 0.45], q [2, 4.5] and
    delta [0.93, 0.99]. *)
Theorem registers_five_uncertainties (w : world) (name : string) (u : unit) (st : state) :
  config_block w (initial_state name) = Return u st ->
  exists m,
    globals st !! "model" = Some VModelRef /\ the_model st = Some m /\
    map rp_name (uncertainties m) = ["mean"; "stdev"; "b"; "q"; "delta"] /\
    map range (uncertainties m) =
      [(0.01, 0.05); (0.001, 0.005); (0.1, 0.45); (2, 4.5); (0.93, 0.99)].
Proof.
  intros Hrun.
  destruct (config_block_returns w name u st Hrun) as (f & np & rp & so & ct & md & _ & ->).
  eexists. repeat split; reflexivity.
Qed.

Lemma registers_five_uncertainties_witness :
  exists st,
    config_block obliging_world (initial_state "__main__") = Return tt st /\
    exists m,
      globals st !! "model" = Some VModelRef /\ the_model st = Some m /\
      map rp_name (uncertainties m) = ["mean"; "stdev"; "b"; "q"; "delta"] /\
      map range (uncertainties m) =
        [(0.01, 0.05); (0.001, 0.005); (0.1, 0.45); (2, 4.5); (0.93, 0.99)].
Proof.
  eexists. split; [vm_compute; reflexivity|].
  apply (registers_five_uncertainties obliging_world "__main__" tt).
  vm_compute. reflexivity.
Defined.

(** C5: the script registers exactly five levers, all [RealParameter]s, with
    the names and ranges c1 and c2 [-2, 2], r1 and r2 [0, 2] and w1 [0, 1]. *)
Theorem registers_five_levers (w : world) (name : string) (u : unit) (st : state) :
  config_block w (initial_state name) = Return u st ->
  exists m,
    globals st !! "model" = Some VModelRef /\ the_model st = Some m /\
    map rp_name (levers m) = ["c1"; "c2"; "r1"; "r2"; "w1"] /\
    map range (levers m) = [(-2, 2); (-2, 2); (0, 2); (0, 2); (0, 1)].
Proof.
  intros Hrun.
  destruct (config_block_returns w name u st Hrun) as (f & np & rp & so & ct & md & _ & ->).
  eexists. repeat split; reflexivity.
Qed.

Lemma registers_five_levers_witness :
  exists st,
    config_block obliging_world (initial_state "__main__") = Return tt st /\
    exists m,
      globals st !! "model" = Some VModelRef /\ the_model st = Some m /\
      map rp_name (levers m) = ["c1"; "c2"; "r1"; "r2"; "w1"] /\
      map range (levers m) = [(-2, 2); (-2, 2); (0, 2); (0, 2); (0, 1)].
Proof.
  eexists. split; [vm_compute; reflexivity|].
  apply (registers_five_levers obliging_world "__main__" tt).
  vm_compute. reflexivity.
Defined.

(** C6: the script registers exactly two constants, [alpha] with the value
    0.41 and [nsamples] with the value 150. *)
Theorem registers_two_constants (w : world) (name : string) (u : unit) (st : state) :
  config_block w (initial_state name) = Return u st ->
  exists m,
    globals st !! "model" = Some VModelRef /\ the_model st = Some m /\
    map c_name (constants m) = ["alpha"; "nsamples"] /\
    map c_value (constants m) = [PyFloat 0.41; PyInt 150].
Proof.
  intros Hrun.
  destruct (config_block_returns w name u st Hrun) as (f & np & rp & so & ct & md & _ & ->).
  eexists. repeat split; reflexivity.
Qed.

Lemma registers_two_constants_witness :
  exists st,
    config_block obliging_world (initial_state "__main__") = Return tt st /\
    exists m,
      globals st !! "model" = Some VModelRef /\ the_model st = Some m /\
      map c_name (constants m) = ["alpha"; "nsamples"] /\
      map c_value (constants m) = [PyFloat 0.41; PyInt 150].
Proof.
  eexists. split; [vm_compute; reflexivity|].
  apply (registers_two_constants obliging_world "__main__" tt).
  vm_compute. reflexivity.
Defined.

(** C7: the script registers exactly four scalar outcomes, [max_P],
    [utility], [inertia] and [reliability] in this order; the model's
    function is the object imported as [lake_problem], and every outcome
    reads the output field of its own name, with no function applied to
    it. *)
Theorem registers_four_outcomes (w : world) (name : string) (u : unit) (st : state) :
  config_block w (initial_state name) = Return u st ->
  exists m,
    globals st !! "model" = Some VModelRef /\ the_model st = Some m /\
    w_import_from w "lakemodel_function" "lake_problem" = inl (m_function m) /\
    map so_name (outcomes m) = ["max_P"; "utility"; "inertia"; "reliability"] /\
    Forall (fun o => output_fields o = [so_name o] /\ function o = None) (outcomes m).
Proof.
  intros Hrun.
  destruct (config_block_returns w name u st Hrun)
    as (f & np & rp & so & ct & md & Hf & ->).
  eexists. repeat split; try reflexivity; [exact Hf|].
  cbn [outcomes]. repeat constructor.
Qed.

Lemma registers_four_outcomes_witness :
  exists st,
    config_block obliging_world (initial_state "__main__") = Return tt st /\
    exists m,
      globals st !! "model" = Some VModelRef /\ the_model st = Some m /\
      w_import_from obliging_world "lakemodel_function" "lake_problem" = inl (m_function m) /\
      map so_name (outcomes m) = ["max_P"; "utility"; "inertia"; "reliability"] /\
      Forall (fun o => output_fields o = [so_name o] /\ function o = None) (outcomes m).
Proof.
  eexists. split; [vm_compute; reflexivity|].
  apply (registers_four_outcomes obliging_world "__main__" tt).
  vm_compute. reflexivity.
Defined.

(** *** The experiment run and the analysis *)

(** Run as a program, lines 100-160 bind [results] to what the experiment
    run returned and leave [outcomes] and [pd] unbound. *)
Lemma experiment_returns (w : world) :
  returns (config_block w ;; experiment_block w) (initial_state "__main__") (fun _ st =>
    (exists evaluator method results,
       w_getattr w evaluator "perform_experiments" = inl method /\
       w_call w method [] [("scenarios", VNum (PyInt 1000)); ("policies", VNum (PyInt 4))]
         = inl results /\
       globals st !! "results" = Some results) /\
    globals st !! "outcomes" = None).
Proof.
  unfold config_block, experiment_block, initial_state.
  repeat exec_step w.
  intros _. split; [|reflexivity].
  eexists _, _, _. split; [eassumption|]. split; [eassumption|reflexivity].
Qed.

Lemma builtin_outcomes : builtin "outcomes" = None.
Proof. reflexivity. Qed.

(** Where [outcomes] is unbound, line 180 raises [NameError] as soon as
    [pd.DataFrame] has been looked up. *)
Lemma analysis_statement_raises (w : world) (st : state) (pd df : value) :
  globals st !! "pd" = Some pd ->
  w_getattr w pd "DataFrame" = inl df ->
  globals st !! "outcomes" = None ->
  analysis_statement w st = Raise (NameError "outcomes").
Proof.
  intros Hpd Hdf Hnone.
  unfold analysis_statement, call, getattr, bind, load, lift.
  rewrite Hpd, Hdf. cbn [ret sequence bind load].
  unfold bind, load. now rewrite Hnone, builtin_outcomes.
Qed.

Lemma analysis_block_raises (w : world) (st : state) (pd df : value) :
  w_import w "pandas" = inl pd ->
  w_getattr w pd "DataFrame" = inl df ->
  globals st !! "outcomes" = None ->
  analysis_block w st = Raise (NameError "outcomes").
Proof.
  intros Hpd Hdf Hnone.
  unfold analysis_block, import_as, bind at 1 2, lift. rewrite Hpd.
  unfold ret, store, bind at 1.
  rewrite (analysis_statement_raises w _ pd df); [reflexivity| |assumption|].
  - cbn [globals]. apply lookup_insert_eq.
  - cbn [globals]. rewrite lookup_insert_ne by discriminate. assumption.
Qed.



(** Whatever the libraries do, the run of the module as a program does not
    complete. *)
Lemma run_module_raises (w : world) : exists e, run_module w "__main__" = Raise e.
Proof.
  unfold run_module, script.
  destruct ((config_block w ;; experiment_block w) (initial_state "__main__"))
    as [[] st|e] eqn:Hrun.
  - destruct (experiment_returns w tt st Hrun) as [_ Hnone].
    unfold bind at 1. unfold bind at 1 in Hrun.
    destruct (config_block w (initial_state "__main__")) as [[] st1|e]; [|discriminate].
    unfold bind at 1. rewrite Hrun.
    destruct (w_import w "pandas") as [pd|e] eqn:Hpd.
    + destruct (w_getattr w pd "DataFrame") as [df|e] eqn:Hdf.
      * eexists. now apply (analysis_block_raises w st pd df).
      * exists e. unfold analysis_block, import_as, bind at 1 2, lift. rewrite Hpd.
        unfold ret, store, bind at 1.
        unfold analysis_statement, call, getattr, bind, load, lift. cbn [globals].
        now rewrite lookup_insert_eq, Hdf.
    + exists e. unfold analysis_block, import_as, bind, lift. now rewrite Hpd.
  - exists e. unfold bind at 1. unfold bind at 1 in Hrun.
    destruct (config_block w (initial_state "__main__")) as [[] st1|e1].
    + unfold bind at 1. now rewrite Hrun.
    + now injection Hrun as ->.
Qed.

End ScriptFacts.

(* ===================================================================== *)
(** ** Properties of the simulation core                                  *)
(* ===================================================================== *)

Module LakeFacts.
Import LakeModel.

(** *** Clipping and fractions *)

Lemma clip_in_range (lo hi x : Q) : lo <= hi -> in_range lo hi (clip lo hi x).
Proof.
  intros Hlh. unfold in_range, clip. split.
  - apply Q.min_glb; [assumption|apply Q.le_max_l].
  - apply Q.le_min_l.
Qed.

Lemma fraction_in_range (count total : nat) :
  (count <= total)%nat -> (0 < total)%nat -> in_range 0 1 (fraction count total).
Proof.
  intros Hle Hpos. unfold in_range, fraction.
  assert (Htot : 0 < inject_Z (Z.of_nat total)) by now apply NpFacts.count_pos.
  split.
  - apply Qle_shift_div_l; [assumption|]. rewrite Qmult_0_l.
    change 0 with (inject_Z 0). rewrite <- Zle_Qle. lia.
  - apply Qle_shift_div_r; [assumption|]. rewrite Qmult_1_l.
    rewrite <- Zle_Qle. lia.
Qed.

Lemma large_changes_le (releases : list Q) :
  (large_changes releases <= length releases - 1)%nat.
Proof.
  induction releases as [|a0 rest IH]; [simpl; lia|].
  destruct rest as [|a1 rest']; [simpl; lia|].
  change (large_changes (a0 :: a1 :: rest'))
    with ((if Qlt_le_dec tau (Qabs (a1 - a0)) then 1 else 0)
          + large_changes (a1 :: rest'))%nat.
  cbn [length] in *. destruct (Qlt_le_dec tau (Qabs (a1 - a0))); lia.
Qed.

Lemma below_le (crit : Q) (stock : list Q) : (below crit stock <= length stock)%nat.
Proof.
  induction stock as [|x rest IH]; simpl; [lia|].
  destruct (Qlt_le_dec x crit); lia.
Qed.

Lemma Qsum_unit_bounds (xs : list Q) :
  Forall (in_range 0 1) xs ->
  0 <= Np.Qsum xs /\ Np.Qsum xs <= inject_Z (Z.of_nat (length xs)).
Proof.
  induction 1 as [|x xs [Hx0 Hx1] _ [IH0 IH1]]; simpl Np.Qsum.
  - split; apply Qle_refl.
  - split.
    + change 0 with (0 + 0). now apply Qplus_le_compat.
    + cbn [length]. rewrite Nat2Z.inj_succ, <- Z.add_1_l, inject_Z_plus.
      now apply Qplus_le_compat.
Qed.

Lemma Qmean_unit_bounds (xs : list Q) :
  (0 < length xs)%nat -> Forall (in_range 0 1) xs -> in_range 0 1 (Np.Qmean xs).
Proof.
  intros Hlen Hall. destruct (Qsum_unit_bounds xs Hall) as [H0 H1].
  assert (Hn : 0 < inject_Z (Z.of_nat (length xs))) by now apply NpFacts.count_pos.
  unfold in_range, Np.Qmean. split.
  - apply Qle_shift_div_l; [assumption|]. now rewrite Qmult_0_l.
  - apply Qle_shift_div_r; [assumption|]. now rewrite Qmult_1_l.
Qed.

Section CoreFacts.

Variable T : nat.
Variable release_rule : levers -> list Q -> Q.
Variable power : Q -> Q -> Q.
Variable X_crit : Q -> Q -> Q.
Variable rng : Type.
Variable lognormal : Q -> Q -> rng -> Q * rng.

Lemma draw_length (n : nat) (u : uncertainties) (g : rng) :
  length (fst (draw rng lognormal n u g)) = n.
Proof.
  revert g. induction n as [|n IH]; intros g; simpl; [reflexivity|].
  destruct (lognormal (mean u) (stdev u) g) as [e g1].
  specialize (IH g1). destruct (draw rng lognormal n u g1) as [es g2].
  simpl in *. now rewrite IH.
Qed.

Lemma steps_spec (u : uncertainties) (l : levers) (inflows : list Q)
    (X_t : Q) (history : list Q) :
  let run := steps release_rule power u l inflows X_t history in
  length (fst run) = length inflows /\ length (snd run) = length inflows /\
  Forall (in_range 0 max_release) (snd run).
Proof.
  revert X_t history. induction inflows as [|e rest IH]; intros X_t history; simpl.
  - repeat split; constructor.
  - match goal with
    | |- context [steps _ _ u l rest ?x ?h] =>
        specialize (IH x h); destruct (steps release_rule power u l rest x h) as [stock releases]
    end.
    simpl in *. destruct IH as (Hs & Hr & Hall). repeat split; try congruence.
    constructor; [|assumption]. apply clip_in_range. discriminate.
Qed.

Lemma replication_well_formed (u : uncertainties) (l : levers) (inflows : list Q) :
  length inflows = T -> well_formed_run T (replication release_rule power u l inflows).
Proof.
  intros Hlen. unfold replication, well_formed_run.
  pose proof (steps_spec u l inflows 0 [0]) as Hsteps.
  destruct (steps release_rule power u l inflows 0 [0]) as [stock releases].
  simpl in *. destruct Hsteps as (Hs & Hr & Hall). repeat split; congruence.
Qed.

Lemma replications_spec (n : nat) (u : uncertainties) (l : levers) (g : rng) :
  let runs := fst (replications T release_rule power rng lognormal n u l g) in
  length runs = n /\ Forall (well_formed_run T) runs.
Proof.
  revert g. induction n as [|n IH]; intros g; simpl.
  - split; [reflexivity|constructor].
  - pose proof (draw_length T u g) as Hdraw.
    destruct (draw rng lognormal T u g) as [inflows g1].
    specialize (IH g1).
    destruct (replications T release_rule power rng lognormal n u l g1) as [runs g2].
    simpl in *. destruct IH as [Hlen Hall]. split; [congruence|].
    constructor; [|assumption]. now apply replication_well_formed.
Qed.

(** *** Main properties of one model evaluation *)

(** C2: for every parameter set with the uncertainties and levers in their
    declared ranges (at least one replication, a horizon of at least two
    steps), every release of every replication lies in [0, 0.1], and the
    outcomes [inertia] and [reliability] lie in [0, 1]. *)
Theorem outcomes_within_valid_ranges (u : uncertainties) (l : levers) (c : constants)
    (g : rng) :
  valid_uncertainties u -> valid_levers l ->
  (1 <= nsamples c)%nat -> (2 <= T)%nat ->
  let runs := fst (replications T release_rule power rng lognormal (nsamples c) u l g) in
  let o := fst (lake_problem T release_rule power X_crit rng lognormal u l c g) in
  Forall (fun run => Forall (in_range 0 0.1) (snd run)) runs /\
  in_range 0 1 (inertia o) /\
  in_range 0 1 (reliability o).
Proof.
  intros _ _ Hn HT. cbv zeta. unfold lake_problem.
  destruct (replications_spec (nsamples c) u l g) as [Hlen Hall].
  destruct (replications T release_rule power rng lognormal (nsamples c) u l g)
    as [runs g'].
  cbn [fst] in *. split; [|split].
  - eapply List.Forall_impl; [|exact Hall]. intros run (_ & _ & Hrel). exact Hrel.
  - cbn [aggregate inertia]. unfold inertia_of.
    destruct runs as [|run runs']; [simpl in Hlen; lia|].
    inversion Hall as [|? ? Hrun _]; subst. destruct Hrun as (_ & Hrel & _).
    cbn [map hd].
    apply fraction_in_range; [|lia].
    rewrite <- Hrel. apply large_changes_le.
  - cbn [aggregate reliability]. apply Qmean_unit_bounds.
    + rewrite !length_map. lia.
    + rewrite List.Forall_map. apply List.Forall_map.
      eapply List.Forall_impl; [|exact Hall]. intros run _.
      unfold reliability_of. apply fraction_in_range; [|lia].
      etransitivity; [apply below_le|]. apply firstn_le_length.
Qed.

End CoreFacts.

(** An instance of the parameters: a horizon of three steps, a generator
    that counts its draws, a linear release rule. *)
Lemma outcomes_within_valid_ranges_witness :
  let u := {| mean := 0.02; stdev := 0.0017; b := 0.42; q := 2; delta := 0.98 |} in
  let l := {| c1 := 0.5; c2 := -1; r1 := 1; r2 := 0.5; w1 := 0.5 |} in
  let c := {| alpha := 0.41; nsamples := 2 |} in
  let rule := fun (l : levers) (history : list Q) => c1 l * List.last history 0 + w1 l - 0.45 in
  let pow := fun (x _ : Q) => x * x in
  let crit := fun (_ _ : Q) => 0.5 in
  let draw1 := fun (m s : Q) (g : nat) => (m + s * inject_Z (Z.of_nat g), S g) in
  valid_uncertainties u /\ valid_levers l /\
  Forall (fun run => Forall (in_range 0 0.1) (snd run))
    (fst (replications 3 rule pow nat draw1 (nsamples c) u l 0%nat)) /\
  in_range 0 1 (inertia (fst (lake_problem 3 rule pow crit nat draw1 u l c 0%nat))) /\
  in_range 0 1 (reliability (fst (lake_problem 3 rule pow crit nat draw1 u l c 0%nat))).
Proof.
  cbv zeta.
  assert (Hu : valid_uncertainties
                 {| mean := 0.02; stdev := 0.0017; b := 0.42; q := 2; delta := 0.98 |}).
  { unfold valid_uncertainties, in_range. cbn. repeat split; discriminate. }
  assert (Hl : valid_levers {| c1 := 0.5; c2 := -1; r1 := 1; r2 := 0.5; w1 := 0.5 |}).
  { unfold valid_levers, in_range. cbn. repeat split; discriminate. }
  split; [exact Hu|]. split; [exact Hl|].
  apply (outcomes_within_valid_ranges 3
           (fun l history => c1 l * List.last history 0 + w1 l - 0.45)
           (fun x _ => x * x) (fun _ _ => 0.5) nat
           (fun m s g => (m + s * inject_Z (Z.of_nat g), S g))
           _ _ {| alpha := 0.41; nsamples := 2 |} 0%nat Hu Hl); cbn; lia.
Defined.

End LakeFacts.

(* ===================================================================== *)
(** ** Further properties of [process_p] and of the NumPy fragment        *)
(* ===================================================================== *)

Module NpMore.
Import Np NpFacts.

(** *** Tools *)

Lemma is_max_of_le (f g : nat -> Q) (T : nat) (m m' : Q) :
  (forall t, (t < T)%nat -> f t <= g t) ->
  is_max_of f T m -> is_max_of g T m' -> m <= m'.
Proof.
  intros Hfg [_ (t & Ht & Hm)] [Hub' _]. rewrite Hm.
  eapply Qle_trans; [apply Hfg; assumption|now apply Hub'].
Qed.

Lemma shape_intro (values : nested) (T : nat) :
  values <> [] -> Forall (fun r => length r = T) values ->
  shape values = Some (length values, T).
Proof.
  intros Hne Hall. destruct values as [|row rows]; [contradiction|].
  unfold shape. inversion Hall as [|? ? Hrow _]; subst.
  now rewrite (proj2 (rectangular_Forall _ _) Hall).
Qed.

Lemma shape_rows (values : nested) (n T : nat) :
  shape values = Some (n, T) ->
  n = length values /\ (0 < n)%nat /\ Forall (fun r => length r = T) values.
Proof.
  intros Hs. pose proof (shape_rows_pos _ _ _ Hs) as Hpos.
  destruct (shape_inv _ _ _ Hs) as (row & rows & _ & _ & Hn & _ & Hall). auto.
Qed.

Lemma Qsum_map_ext (A : Type) (f g : A -> Q) (xs : list A) :
  Forall (fun a => f a == g a) xs -> Qsum (map f xs) == Qsum (map g xs).
Proof. induction 1 as [|a xs Ha _ IH]; simpl; [reflexivity|]. now rewrite Ha, IH. Qed.

(** The mean of a column written over the rows. *)
Lemma step_mean_unfold (values : nested) (t : nat) :
  step_mean values t =
  Qsum (map (fun row => nth t row 0) values) / inject_Z (Z.of_nat (length values)).
Proof. unfold step_mean, Qmean, column. now rewrite length_map. Qed.

Lemma Forall2_nth_le (xs ys : list Q) (t : nat) :
  Forall2 Qle xs ys -> nth t xs 0 <= nth t ys 0.
Proof.
  intros H. revert t. induction H as [|x y xs ys Hxy _ IH]; intros [|t]; simpl;
    auto using Qle_refl.
Qed.

(** *** When [process_p] returns a number *)

(** X1: [process_p] returns [nan] exactly on the empty list, and a number
    exactly on the rectangular nested lists with at least one row and one
    column; on every other input it raises [ValueError]. *)
Theorem process_p_returns_number_iff (values : nested) :
  (process_p values = NaN <-> values = []) /\
  ((exists r, process_p values = Ok r) <->
   (exists n T, shape values = Some (n, T) /\ (0 < T)%nat)) /\
  (process_p values = ValueError <->
   values <> [] /\ forall n T, shape values = Some (n, T) -> T = 0%nat).
Proof.
  destruct values as [|row rows].
  - cbn. repeat split; try discriminate; try tauto;
      try (intros [r Hr]; discriminate);
      try (intros (n & T & Hs & _); discriminate).
  - destruct (shape (row :: rows)) as [[n T]|] eqn:Hs.
    + destruct (Nat.eq_dec T 0%nat) as [->|HT].
      * assert (Hp : process_p (row :: rows) = ValueError).
        { pose proof (mean_axis0_length _ _ _ Hs) as Hlen.
          destruct (shape_inv _ _ _ Hs) as (row' & rows' & [= <- <-] & Hrow & _ & Hrect & _).
          unfold process_p. rewrite Hrow, Hrect.
          destruct (mean_axis0 (row :: rows)); [reflexivity|discriminate]. }
        rewrite Hp. repeat split; try discriminate.
        -- intros [r Hr]. discriminate.
        -- intros (n' & T' & [= _ <-] & HT'). lia.
        -- intros n' T' [= _ <-]. reflexivity.
      * destruct (process_p_spec _ _ _ Hs) as (r & Hr & _); [lia|].
        rewrite Hr. repeat split; try discriminate.
        -- intros _. exists n, T. split; [reflexivity|lia].
        -- intros _. now exists r.
        -- intros [_ H0]. specialize (H0 n T eq_refl). lia.
    + assert (Hp : process_p (row :: rows) = ValueError).
      { unfold process_p. unfold shape in Hs.
        destruct (rectangular (length row) (row :: rows)); [discriminate|reflexivity]. }
      rewrite Hp. repeat split; try discriminate.
      * intros [r Hr]. discriminate.
      * intros (n & T & Hs' & _). discriminate.
Qed.



(** *** How [process_p] follows changes of the array *)

Lemma Qsum_Forall2_le (A : Type) (f : A -> Q) (xs ys : list A) :
  Forall2 (fun a a' => f a <= f a') xs ys -> Qsum (map f xs) <= Qsum (map f ys).
Proof.
  induction 1 as [|a a' xs ys Ha _ IH]; simpl; [apply Qle_refl|].
  now apply Qplus_le_compat.
Qed.

Lemma Forall2_rows_length (values values' : nested) (T : nat) :
  Forall2 (Forall2 Qle) values values' ->
  Forall (fun r => length r = T) values -> Forall (fun r => length r = T) values'.
Proof.
  induction 1 as [|row row' rows rows' Hrow _ IH]; intros Hall; [constructor|].
  inversion Hall; subst. constructor; [|now apply IH].
  symmetry. eapply Forall2_length; eauto.
Qed.

(** X5: [process_p] is monotone: when every entry of [values] is at most the
    entry of [values'] at the same place, the value of [process_p] on
    [values] is at most its value on [values']. *)
Theorem process_p_monotone (values values' : nested) (n T : nat) :
  shape values = Some (n, T) -> (0 < T)%nat ->
  Forall2 (Forall2 Qle) values values' ->
  exists r r', process_p values = Ok r /\ process_p values' = Ok r' /\ r <= r'.
Proof.
  intros Hs HT Hle. destruct (shape_rows _ _ _ Hs) as (Hn & Hpos & Hlen).
  pose proof (Forall2_length _ _ _ Hle) as Hrows.
  assert (Hs' : shape values' = Some (n, T)).
  { rewrite Hn, Hrows. apply shape_intro.
    - intros ->. simpl in Hrows. lia.
    - now apply (Forall2_rows_length values). }
  destruct (process_p_spec _ _ _ Hs HT) as (r & Hr & Hmax).
  destruct (process_p_spec _ _ _ Hs' HT) as (r' & Hr' & Hmax').
  exists r, r'. repeat split; try assumption.
  apply (is_max_of_le (step_mean values) (step_mean values') T); try assumption.
  intros t _. rewrite !step_mean_unfold, <- Hrows.
  apply Qdiv_le_compat_r; [apply count_pos; lia|].
  apply Qsum_Forall2_le. eapply Forall2_impl; [exact Hle|].
  intros row row' Hrow. now apply Forall2_nth_le.
Qed.

Lemma process_p_monotone_witness :
  shape [[0; 4]; [3; 0]] = Some (2%nat, 2%nat) /\
  Forall2 (Forall2 Qle) [[0; 4]; [3; 0]] [[1; 4]; [3; 2]] /\
  exists r r',
    process_p [[0; 4]; [3; 0]] = Ok r /\ process_p [[1; 4]; [3; 2]] = Ok r' /\ r <= r'.
Proof.
  assert (Hle : Forall2 (Forall2 Qle) [[0; 4]; [3; 0]] [[1; 4]; [3; 2]]).
  { repeat constructor; discriminate. }
  split; [reflexivity|]. split; [exact Hle|].
  apply (process_p_monotone _ _ 2 2); [reflexivity|lia|exact Hle].
Defined.

Lemma shape_rowwise (g : list Q -> list Q) (values : nested) (n T : nat) :
  (forall row, length (g row) = length row) ->
  shape values = Some (n, T) -> shape (map g values) = Some (n, T).
Proof.
  intros Hg Hs. destruct (shape_rows _ _ _ Hs) as (Hn & Hpos & Hlen).
  rewrite Hn, <- (length_map g values). apply shape_intro.
  - intros Hnil. apply (f_equal (@length _)) in Hnil. rewrite length_map in Hnil.
    simpl in Hnil. lia.
  - rewrite List.Forall_map. eapply List.Forall_impl; [|exact Hlen].
    intros row Hrow. cbn beta in *. now rewrite Hg.
Qed.

Lemma is_max_of_reversed (f : nat -> Q) (T : nat) (m : Q) :
  is_max_of f T m -> is_max_of (fun t => f (T - S t)%nat) T m.
Proof.
  intros [Hub (t & Ht & Hm)]. split.
  - intros t' Ht'. apply Hub. lia.
  - exists (T - S t)%nat. split; [lia|].
    replace (T - S (T - S t))%nat with t by lia. exact Hm.
Qed.

(** X9: reversing the order of the time steps in every replication does not
    change the value of [process_p]. *)
Theorem process_p_time_reversal (values : nested) (n T : nat) :
  shape values = Some (n, T) -> (0 < T)%nat ->
  exists r r',
    process_p values = Ok r /\ process_p (map (@rev Q) values) = Ok r' /\ r' == r.
Proof.
  intros Hs HT. destruct (shape_rows _ _ _ Hs) as (Hn & Hpos & Hlen).
  pose proof (shape_rowwise (@rev Q) values n T (@length_rev Q) Hs) as Hs'.
  destruct (process_p_spec _ _ _ Hs HT) as (r & Hr & Hmax).
  destruct (process_p_spec _ _ _ Hs' HT) as (r' & Hr' & Hmax').
  exists r, r'. repeat split; try assumption.
  apply (is_max_of_unique (step_mean (map (@rev Q) values)) T); [assumption|].
  eapply is_max_of_ext; [|apply (is_max_of_reversed _ _ _ Hmax)].
  intros t Ht. cbn beta. rewrite !step_mean_unfold, map_map, length_map.
  rewrite (Qsum_map_ext _ (fun row => nth (T - S t) row 0) (fun row => nth t (rev row) 0));
    [reflexivity|].
  eapply List.Forall_impl; [|exact Hlen]. intros row Hrow. cbn beta in *.
  rewrite rev_nth by lia. rewrite Hrow. reflexivity.
Qed.

Lemma process_p_time_reversal_witness :
  shape [[0; 4; 1]; [3; 0; 2]] = Some (2%nat, 3%nat) /\
  exists r r',
    process_p [[0; 4; 1]; [3; 0; 2]] = Ok r /\
    process_p (map (@rev Q) [[0; 4; 1]; [3; 0; 2]]) = Ok r' /\ r' == r.
Proof.
  split; [reflexivity|].
  apply (process_p_time_reversal [[0; 4; 1]; [3; 0; 2]] 2 3); [reflexivity|lia].
Defined.

(** *** The two NumPy calls of [process_p] *)

Lemma Qmax_either (x y : Q) : Qmax x y = x \/ Qmax x y = y.
Proof. unfold Qmax, GenericMinMax.gmax. destruct (x ?= y); auto. Qed.

Lemma fold_max_in (xs : list Q) (acc : Q) :
  fold_left Qmax xs acc = acc \/ In (fold_left Qmax xs acc) xs.
Proof.
  revert acc. induction xs as [|x xs IH]; intros acc; simpl; [now left|].
  destruct (IH (Qmax acc x)) as [Hacc|Hin]; [|now right; right].
  rewrite Hacc. destruct (Qmax_either acc x) as [->| ->]; [now left|now right; left].
Qed.

(** X11: [np.max] on a one-dimensional array raises exactly when the array
    is empty; otherwise it returns an element of the array that no element
    exceeds. *)
Theorem amax_greatest_element (xs : list Q) :
  (amax xs = None <-> xs = []) /\
  (forall m, amax xs = Some m -> In m xs /\ Forall (fun x => x <= m) xs).
Proof.
  split.
  - destruct xs; simpl; split; intros H; try discriminate; reflexivity.
  - intros m Hm. split.
    + destruct xs as [|x xs]; [discriminate|]. injection Hm as <-.
      destruct (fold_max_in xs x) as [->|Hin]; [now left|now right].
    + destruct (amax_is_max xs m Hm) as [Hub _].
      rewrite List.Forall_forall. intros x Hin.
      destruct (In_nth xs x 0 Hin) as (t & Ht & <-). now apply Hub.
Qed.

Lemma amax_greatest_element_witness :
  amax [1; 3; 2] = Some 3 /\ In 3 [1; 3; 2] /\ Forall (fun x => x <= 3) [1; 3; 2].
Proof.
  split; [reflexivity|].
  apply (proj2 (amax_greatest_element [1; 3; 2]) 3). reflexivity.
Defined.



End NpMore.

(* ===================================================================== *)
(** ** Further properties of the script                                   *)
(* ===================================================================== *)

Module ScriptMore.
Import Script ScriptFacts.
Local Open Scope py_scope.

(** *** Rules of [wp] *)

Lemma wp_ret {A : Type} (a : A) (st : state) (Qr : A -> state -> Prop) (Qe : exn -> Prop) :
  Qr a st -> wp (ret a) st Qr Qe.
Proof. intros H. exact H. Qed.

Lemma wp_bind {A B : Type} (c : M A) (k : A -> M B) (st : state)
    (Qr : B -> state -> Prop) (Qe : exn -> Prop) :
  wp c st (fun a st1 => wp (k a) st1 Qr Qe) Qe -> wp (bind c k) st Qr Qe.
Proof. unfold wp, bind. destruct (c st) as [a st1|e]; auto. Qed.

Lemma wp_lift (r : value + exn) (st : state) (Qr : value -> state -> Prop)
    (Qe : exn -> Prop) :
  (forall v, r = inl v -> Qr v st) -> (forall e, r = inr e -> Qe e) ->
  wp (lift r) st Qr Qe.
Proof. intros Hr He. destruct r as [v|e]; [now apply Hr|now apply He]. Qed.

Lemma wp_load (x : string) (v : value) (st : state) (Qr : value -> state -> Prop)
    (Qe : exn -> Prop) :
  globals st !! x = Some v -> Qr v st -> wp (load x) st Qr Qe.
Proof. intros Hx H. unfold wp, load. now rewrite Hx. Qed.

Lemma wp_load_unbound (x : string) (st : state) (Qr : value -> state -> Prop)
    (Qe : exn -> Prop) :
  globals st !! x = None -> builtin x = None -> Qe (NameError x) ->
  wp (load x) st Qr Qe.
Proof. intros Hx Hb H. unfold wp, load. now rewrite Hx, Hb. Qed.

Lemma wp_store (x : string) (v : value) (st : state) (Qr : unit -> state -> Prop)
    (Qe : exn -> Prop) :
  Qr tt {| globals := <[x := v]> (globals st); the_model := the_model st |} ->
  wp (store x v) st Qr Qe.
Proof. intros H. exact H. Qed.

Lemma wp_allocate_model (m : Model) (st : state) (Qr : value -> state -> Prop)
    (Qe : exn -> Prop) :
  Qr VModelRef {| globals := globals st; the_model := Some m |} ->
  wp (allocate_model m) st Qr Qe.
Proof. intros H. exact H. Qed.

Lemma wp_update_model (update : Model -> Model) (m : Model) (st : state)
    (Qr : unit -> state -> Prop) (Qe : exn -> Prop) :
  the_model st = Some m ->
  Qr tt {| globals := globals st; the_model := Some (update m) |} ->
  wp (update_model update VModelRef) st Qr Qe.
Proof. intros Hm H. unfold wp, update_model. now rewrite Hm. Qed.

Lemma wp_finally (body : M unit) (exit : option exn) (st : state)
    (Qr : unit -> state -> Prop) (Qe : exn -> Prop) :
  wp body st
     (fun _ st1 => match exit with None => Qr tt st1 | Some e' => Qe e' end)
     (fun e => match exit with None => Qe e | Some e' => Qe e' end) ->
  wp (finally body exit) st Qr Qe.
Proof.
  unfold wp, finally. destruct (body st) as [[] st1|e]; destruct exit; auto.
Qed.

(** An exception that a library operation was seen to raise. *)
Ltac from_world :=
  right; unfold raised_by_world;
  match goal with
  | H : w_import _ _ = inr _ |- _ => left; eexists; exact H
  | H : w_import_from _ _ _ = inr _ |- _ => right; left; eexists _, _; exact H
  | H : w_getattr _ _ _ = inr _ |- _ => do 2 right; left; eexists _, _; exact H
  | H : w_call _ _ _ _ = inr _ |- _ => do 3 right; left; eexists _, _, _; exact H
  | H : w_enter _ _ = inr _ |- _ => do 4 right; left; eexists; exact H
  | H : w_exit _ _ = Some _ |- _ => do 5 right; eexists; exact H
  end.

(** One step of symbolic execution, following both the normal and the
    exceptional exit. *)
Ltac wp_step :=
  lazymatch goal with
  | |- wp (bind _ _) _ _ _ => apply wp_bind
  | |- wp (ret _) _ _ _ => apply wp_ret
  | |- wp (store _ _) _ _ _ => apply wp_store; cbn [globals the_model]
  | |- wp (lift _) _ _ _ => apply wp_lift; intros ? ?; [|try from_world]
  | |- wp (load _) _ _ _ =>
      first [ eapply wp_load; [reflexivity|]
            | apply wp_load_unbound; [reflexivity|reflexivity|] ]
  | |- wp (allocate_model _) _ _ _ => apply wp_allocate_model; cbn [globals the_model]
  | |- wp (update_model _ _) _ _ _ =>
      eapply wp_update_model; [reflexivity|]; cbn [globals the_model]
  | |- wp (finally _ _) _ _ _ => apply wp_finally
  | |- wp (sequence _) _ _ _ => cbn [sequence map fst snd]
  | |- wp (from_import _ _ _) _ _ _ => cbn [from_import]
  | |- wp (import_as _ _ _) _ _ _ => unfold import_as
  | |- wp (call_Model _ _) _ _ _ => unfold call_Model
  | |- wp (call_RealParameter _ _ _) _ _ _ => unfold call_RealParameter
  | |- wp (call_ScalarOutcome _) _ _ _ => unfold call_ScalarOutcome
  | |- wp (call_Constant _ _) _ _ _ => unfold call_Constant
  | |- wp (set_model_attr _) _ _ _ => unfold set_model_attr
  | |- wp (getattr _ _ _) _ _ _ => unfold getattr
  | |- wp (call _ _ _ _) _ _ _ => unfold call
  | |- wp (with_as _ _ _ _) _ _ _ => unfold with_as
  | |- wp (analysis_statement _) _ _ _ => unfold analysis_statement
  end.

(** The exit of the context manager, and the end of a path that raises. *)
Ltac wp_exit w :=
  lazymatch goal with
  | |- match w_exit w ?m with _ => _ end => destruct (w_exit w m) eqn:?; cbn beta
  | |- _ = NameError _ \/ _ => first [ left; reflexivity | from_world ]
  end.

(** *** How a run of the module ends *)

Lemma script_wp (w : world) (name : string) :
  wp (script w) (initial_state name) (fun _ _ => False)
     (fun e => e = NameError "outcomes" \/ raised_by_world w e).
Proof.
  unfold script, config_block, experiment_block, analysis_block, initial_state.
  repeat wp_step.
  destruct (is_main (VStr name)); repeat first [wp_step | wp_exit w].
Qed.

(** X13: under any name and whatever the libraries do, a run of the module
    does not complete: it ends with an exception, which is either the
    [NameError] for [outcomes] or an exception raised by a library
    operation. *)
Theorem run_module_ends_in_exception (w : world) (name : string) :
  exists e,
    run_module w name = Raise e /\
    (e = NameError "outcomes" \/ raised_by_world w e).
Proof.
  pose proof (script_wp w name) as H. unfold wp in H. unfold run_module.
  destruct (script w (initial_state name)) as [[] st|e]; [contradiction|eauto].
Qed.

(** *** The module imported under another name *)

Lemma imported_prefix_returns (w : world) (name : string) :
  name <> "__main__" ->
  returns (config_block w ;; experiment_block w) (initial_state name) (fun _ st =>
    globals st !! "evaluator" = None /\ globals st !! "results" = None /\
    globals st !! "outcomes" = None).
Proof.
  intros Hname.
  assert (Hmain : is_main (VStr name) = false).
  { cbn [is_main]. now apply String.eqb_neq. }
  unfold config_block, experiment_block, initial_state.
  repeat first [rewrite Hmain | exec_step w].
  repeat split; reflexivity.
Qed.

(** X14: when the module runs under a name other than ["__main__"] (it is
    imported), no evaluator is created and no experiment is run: after lines
    100-160 neither [evaluator] nor [results] is bound, and with [pandas]
    importable and [pd.DataFrame] present the run ends with the [NameError]
    for [outcomes]. *)
Theorem imported_module_runs_no_experiment (w : world) (name : string) (u : unit)
    (st : state) (pd df : value) :
  name <> "__main__" ->
  (config_block w ;; experiment_block w) (initial_state name) = Return u st ->
  w_import w "pandas" = inl pd ->
  w_getattr w pd "DataFrame" = inl df ->
  globals st !! "evaluator" = None /\ globals st !! "results" = None /\
  run_module w name = Raise (NameError "outcomes").
Proof.
  intros Hname Hrun Hpd Hdf.
  destruct (imported_prefix_returns w name Hname u st Hrun) as (Hev & Hres & Hnone).
  repeat split; try assumption.
  unfold run_module, script. unfold bind at 1. unfold bind at 1 in Hrun.
  destruct (config_block w (initial_state name)) as [[] st1|e]; [|discriminate].
  unfold bind at 1. rewrite Hrun.
  now apply (analysis_block_raises w st pd df).
Qed.

Lemma imported_module_runs_no_experiment_witness :
  exists st,
    "lakemodel" <> "__main__" /\
    (config_block obliging_world ;; experiment_block obliging_world)
      (initial_state "lakemodel") = Return tt st /\
    globals st !! "evaluator" = None /\ globals st !! "results" = None /\
    run_module obliging_world "lakemodel" = Raise (NameError "outcomes").
Proof.
  eexists. split; [discriminate|]. split; [vm_compute; reflexivity|].
  apply (imported_module_runs_no_experiment obliging_world "lakemodel" tt _
           (VForeign 1) (VForeign 3));
    [discriminate|vm_compute; reflexivity|reflexivity|reflexivity].
Defined.

(** *** The experiment run *)

(** X15: run as a program, lines 159-160 call [MultiprocessingEvaluator] on
    the model, enter the manager it returns, call [perform_experiments] of
    the entered evaluator with [scenarios=1000] and [policies=4], bind what
    this call returns to [results], and leave the manager without an
    exception. *)
Theorem results_from_evaluator_run (w : world) (u : unit) (st : state) :
  (config_block w ;; experiment_block w) (initial_state "__main__") = Return u st ->
  exists cls mgr evaluator method results,
    w_import_from w "ema_workbench" "MultiprocessingEvaluator" = inl cls /\
    w_call w cls [VModelRef] [] = inl mgr /\
    w_enter w mgr = inl evaluator /\
    w_getattr w evaluator "perform_experiments" = inl method /\
    w_call w method [] [("scenarios", VNum (PyInt 1000)); ("policies", VNum (PyInt 4))]
      = inl results /\
    w_exit w mgr = None /\
    globals st !! "evaluator" = Some evaluator /\
    globals st !! "results" = Some results.
Proof.
  revert u st.
  change (returns (config_block w ;; experiment_block w) (initial_state "__main__")
    (fun _ st =>
       exists cls mgr evaluator method results,
         w_import_from w "ema_workbench" "MultiprocessingEvaluator" = inl cls /\
         w_call w cls [VModelRef] [] = inl mgr /\
         w_enter w mgr = inl evaluator /\
         w_getattr w evaluator "perform_experiments" = inl method /\
         w_call w method [] [("scenarios", VNum (PyInt 1000)); ("policies", VNum (PyInt 4))]
           = inl results /\
         w_exit w mgr = None /\
         globals st !! "evaluator" = Some evaluator /\
         globals st !! "results" = Some results)).
  unfold config_block, experiment_block, initial_state.
  repeat exec_step w.
  intros Hexit. eexists _, _, _, _, _.
  split; [eassumption|]. split; [eassumption|]. split; [eassumption|].
  split; [eassumption|]. split; [eassumption|]. split; [exact Hexit|].
  split; reflexivity.
Qed.

Lemma results_from_evaluator_run_witness :
  exists st,
    (config_block obliging_world ;; experiment_block obliging_world)
      (initial_state "__main__") = Return tt st /\
    exists cls mgr evaluator method results,
      w_import_from obliging_world "ema_workbench" "MultiprocessingEvaluator" = inl cls /\
      w_call obliging_world cls [VModelRef] [] = inl mgr /\
      w_enter obliging_world mgr = inl evaluator /\
      w_getattr obliging_world evaluator "perform_experiments" = inl method /\
      w_call obliging_world method []
        [("scenarios", VNum (PyInt 1000)); ("policies", VNum (PyInt 4))] = inl results /\
      w_exit obliging_world mgr = None /\
      globals st !! "evaluator" = Some evaluator /\
      globals st !! "results" = Some results.
Proof.
  eexists. split; [vm_compute; reflexivity|].
  apply (results_from_evaluator_run obliging_world tt). vm_compute. reflexivity.
Defined.

(** *** What is registered is well formed *)

(** X16: every parameter the script registers has its lower bound below its
    upper bound, the names of the uncertainties, the levers and the
    constants are pairwise different, and so are the names of the
    outcomes. *)
Theorem registered_names_and_ranges_well_formed (w : world) (name : string) (u : unit)
    (st : state) :
  config_block w (initial_state name) = Return u st ->
  exists m,
    the_model st = Some m /\
    Forall (fun p => number_value (lower_bound p) < number_value (upper_bound p))
      (uncertainties m ++ levers m) /\
    NoDup (map rp_name (uncertainties m) ++ map rp_name (levers m)
           ++ map c_name (constants m)) /\
    NoDup (map so_name (outcomes m)).
Proof.
  intros Hrun.
  destruct (config_block_returns w name u st Hrun) as (f & np & rp & so & ct & md & _ & ->).
  eexists. split; [reflexivity|]. cbn [uncertainties levers constants outcomes].
  split; [repeat constructor|].
  split; apply (bool_decide_unpack _); vm_compute; exact I.
Qed.

Lemma registered_names_and_ranges_well_formed_witness :
  exists st,
    config_block obliging_world (initial_state "__main__") = Return tt st /\
    exists m,
      the_model st = Some m /\
      Forall (fun p => number_value (lower_bound p) < number_value (upper_bound p))
        (uncertainties m ++ levers m) /\
      NoDup (map rp_name (uncertainties m) ++ map rp_name (levers m)
             ++ map c_name (constants m)) /\
      NoDup (map so_name (outcomes m)).
Proof.
  eexists. split; [vm_compute; reflexivity|].
  apply (registered_names_and_ranges_well_formed obliging_world "__main__" tt).
  vm_compute. reflexivity.
Defined.

End ScriptMore.
